(** * USA Tank Battle: matchmaking and relay core of [server.js]

    A shallow embedding of the WebSocket part of [server.js]: the three
    process-wide maps ([clients], [waitingByTier], [rooms]), the helper
    functions [uid], [send] and [cleanup], and the handlers installed by
    [wss.on("connection")].  The static-file HTTP server is not modelled.

    Layout: the JavaScript values and built-in conversions the handlers
    use, the state and the handlers, runs of events, and then the
    properties of the specification. *)

From stdpp Require Import base option list gmap strings pretty.
From Stdlib Require Import ZArith Lia Ascii String.

#[local] Set Warnings "-clear-no-such-hyp".

Local Open Scope string_scope.
Local Open Scope Z_scope.
Local Open Scope list_scope.

(** ** JavaScript values *)

(** Numbers.  A finite number is [Dec m e], the decimal [m * 10^e]; the
    not-a-number and the two infinities are separate constructors.  The
    canonical form built by [decimal] has no trailing zero in [m] and writes
    zero as [Dec 0 0], so that equal numbers are equal terms, as the
    SameValueZero comparison of [Map] keys needs ([NaN] equals [NaN], and the
    two zeros are one key).  The sign of zero and the rounding of a long
    literal to binary64 are not represented. *)
Inductive number : Type :=
| NaN
| Infinity (negative : bool)
| Dec (m e : Z).

#[global] Instance number_eq_dec : EqDecision number.
Proof. solve_decision. Defined.

#[global] Instance number_countable : Countable number.
Proof.
  refine (inj_countable'
    (λ n, match n with
          | NaN => inl ()
          | Infinity b => inr (inl b)
          | Dec m e => inr (inr (m, e))
          end)
    (λ x, match x with
          | inl _ => NaN
          | inr (inl b) => Infinity b
          | inr (inr (m, e)) => Dec m e
          end) _).
  by intros [].
Defined.

Fixpoint strip_zeros (fuel : nat) (m e : Z) : Z * Z :=
  match fuel with
  | O => (m, e)
  | S fuel' =>
      if m mod 10 =? 0 then strip_zeros fuel' (m / 10) (e + 1) else (m, e)
  end.

(** The canonical representation of [m * 10^e]. *)
Definition decimal (m e : Z) : number :=
  if m =? 0 then Dec 0 0
  else let '(m', e') := strip_zeros (Z.to_nat (Z.log2 (Z.abs m))) m e in
       Dec m' e'.

Definition canonical (n : number) : number :=
  match n with
  | Dec m e => decimal m e
  | _ => n
  end.

(** The values [JSON.parse] produces, with [undefined] for a property that
    is absent.  An object is the list of its own properties, each key
    once. *)
#[warning="-register-all"]
Inductive value : Type :=
| VUndefined
| VNull
| VBool (b : bool)
| VNum (n : number)
| VStr (s : string)
| VArr (elems : list value)
| VObj (props : list (string * value)).

Fixpoint own_prop (props : list (string * value)) (k : string) : option value :=
  match props with
  | [] => None
  | (k', v) :: rest => if String.eqb k' k then Some v else own_prop rest k
  end.

(** [v.k] for the property names this program reads ([type], [tier],
    [tankName], [payload]), none of which is found on a prototype or on a
    primitive's wrapper.  [None] is the TypeError raised on [null] and
    [undefined]. *)
Definition Get (v : value) (k : string) : option value :=
  match v with
  | VUndefined | VNull => None
  | VObj props => Some (default VUndefined (own_prop props k))
  | _ => Some VUndefined
  end.

Definition ToBoolean (v : value) : bool :=
  match v with
  | VUndefined | VNull => false
  | VBool b => b
  | VNum NaN => false
  | VNum (Infinity _) => true
  | VNum (Dec m _) => negb (m =? 0)
  | VStr s => negb (String.eqb s "")
  | VArr _ | VObj _ => true
  end.

(** [a || b] *)
Definition or_else (a b : value) : value := if ToBoolean a then a else b.

(** *** Number::toString and ToString *)

Fixpoint zeros (n : nat) : string :=
  match n with
  | O => ""
  | S n' => String "0" (zeros n')
  end.

Definition digits (n : Z) : string := pretty (Z.to_N n).

(** The digits [s] of the significand and the decimal exponent [e], laid
    out as ECMAScript's Number::toString does: [k] digits, [n] the position
    of the decimal point. *)
Definition layout (s : string) (e : Z) : string :=
  let k := Z.of_nat (String.length s) in
  let n := e + k in
  if (k <=? n) && (n <=? 21) then s +:+ zeros (Z.to_nat (n - k))
  else if (0 <? n) && (n <=? 21) then
    substring 0 (Z.to_nat n) s +:+ "." +:+ substring (Z.to_nat n) (Z.to_nat (k - n)) s
  else if (-6 <? n) && (n <=? 0) then "0." +:+ zeros (Z.to_nat (- n)) +:+ s
  else
    let ex := (if n - 1 <? 0 then "-" else "+") +:+ digits (Z.abs (n - 1)) in
    if k =? 1 then s +:+ "e" +:+ ex
    else substring 0 1 s +:+ "." +:+ substring 1 (Z.to_nat (k - 1)) s +:+ "e" +:+ ex.

Definition Number_toString (x : number) : string :=
  match x with
  | NaN => "NaN"
  | Infinity false => "Infinity"
  | Infinity true => "-Infinity"
  | Dec m e =>
      match decimal m e with
      | Dec m' e' =>
          if m' =? 0 then "0"
          else (if m' <? 0 then "-" else "") +:+ layout (digits (Z.abs m')) e'
      | _ => "NaN"
      end
  end.

(** ToString.  [None] is a TypeError: an object parsed from JSON whose own
    [toString] property shadows [Object.prototype.toString] has no callable
    conversion left ([valueOf] returns the object itself).  An array is
    converted by [Array.prototype.join]: [null] and [undefined] elements
    give the empty string. *)
Fixpoint ToString (v : value) : option string :=
  match v with
  | VUndefined => Some "undefined"
  | VNull => Some "null"
  | VBool true => Some "true"
  | VBool false => Some "false"
  | VNum n => Some (Number_toString n)
  | VStr s => Some s
  | VArr elems =>
      (fix join (l : list value) : option string :=
         match l with
         | [] => Some ""
         | x :: rest =>
             let elem := match x with
                         | VUndefined | VNull => Some ""
                         | _ => ToString x
                         end in
             match rest with
             | [] => elem
             | _ :: _ =>
                 match elem, join rest with
                 | Some a, Some b => Some (a +:+ "," +:+ b)
                 | _, _ => None
                 end
             end
         end) elems
  | VObj props =>
      match own_prop props "toString" with
      | Some _ => None
      | None => Some "[object Object]"
      end
  end.

(** *** StringToNumber and ToNumber *)

(** White space and line terminators, as far as they are ASCII. *)
Definition is_white_space (a : ascii) : bool :=
  let n := Z.of_nat (nat_of_ascii a) in
  ((9 <=? n) && (n <=? 13)) || (n =? 32).

Fixpoint trim_start (s : string) : string :=
  match s with
  | String a s' => if is_white_space a then trim_start s' else s
  | EmptyString => s
  end.

Fixpoint trim_end (s : string) : string :=
  match s with
  | String a s' =>
      let r := trim_end s' in
      if is_white_space a && String.eqb r "" then "" else String a r
  | EmptyString => s
  end.

Definition digit_value (a : ascii) : option Z :=
  let n := Z.of_nat (nat_of_ascii a) in
  if (48 <=? n) && (n <=? 57) then Some (n - 48)
  else if (97 <=? n) && (n <=? 102) then Some (n - 87)
  else if (65 <=? n) && (n <=? 70) then Some (n - 55)
  else None.

(** Reads the longest prefix of digits below [base], continuing the number
    [acc]; returns the number, how many digits were read, and the rest. *)
Fixpoint read_digits (base : Z) (s : string) (acc count : Z) : Z * Z * string :=
  match s with
  | String a s' =>
      match digit_value a with
      | Some d =>
          if d <? base then read_digits base s' (acc * base + d) (count + 1)
          else (acc, count, s)
      | None => (acc, count, s)
      end
  | EmptyString => (acc, count, s)
  end.

Definition read_sign (s : string) : bool * string :=
  match s with
  | String "-" s' => (true, s')
  | String "+" s' => (false, s')
  | _ => (false, s)
  end.

(** StrUnsignedDecimalLiteral without [Infinity]: digits with an optional
    fraction and an optional exponent part, as significand and exponent. *)
Definition StrUnsignedDecimalLiteral (s : string) : option (Z * Z) :=
  let '(i, ni, r1) := read_digits 10 s 0 0 in
  let '(m, nf, r2) :=
    match r1 with
    | String "." r => read_digits 10 r i 0
    | _ => (i, 0, r1)
    end in
  if ni + nf =? 0 then None
  else
    match r2 with
    | EmptyString => Some (m, - nf)
    | String a r3 =>
        if Ascii.eqb a "e" || Ascii.eqb a "E" then
          let '(neg, r4) := read_sign r3 in
          let '(x, nx, r5) := read_digits 10 r4 0 0 in
          if (nx =? 0) || negb (String.eqb r5 "") then None
          else Some (m, (if neg then - x else x) - nf)
        else None
    end.

(** NonDecimalIntegerLiteral: [0x], [0o], [0b] and their digits. *)
Definition NonDecimalIntegerLiteral (s : string) : option (option Z) :=
  match s with
  | String "0" (String p r) =>
      let base :=
        if Ascii.eqb p "x" || Ascii.eqb p "X" then Some 16
        else if Ascii.eqb p "o" || Ascii.eqb p "O" then Some 8
        else if Ascii.eqb p "b" || Ascii.eqb p "B" then Some 2
        else None in
      match base with
      | Some b =>
          let '(x, nx, r') := read_digits b r 0 0 in
          Some (if (nx =? 0) || negb (String.eqb r' "") then None else Some x)
      | None => None
      end
  | _ => None
  end.

Definition StringToNumber (s : string) : number :=
  let t := trim_end (trim_start s) in
  if String.eqb t "" then Dec 0 0
  else
    match NonDecimalIntegerLiteral t with
    | Some (Some x) => decimal x 0
    | Some None => NaN
    | None =>
        let '(neg, u) := read_sign t in
        if String.eqb u "Infinity" then Infinity neg
        else
          match StrUnsignedDecimalLiteral u with
          | Some (m, e) => decimal (if neg then - m else m) e
          | None => NaN
          end
    end.

(** ToNumber.  A number is itself, in canonical form.  Arrays and objects
    go through their string form (their [valueOf] returns the object
    itself); [None] is the TypeError of [ToString]. *)
Definition ToNumber (v : value) : option number :=
  match v with
  | VUndefined => Some NaN
  | VNull => Some (Dec 0 0)
  | VBool true => Some (Dec 1 0)
  | VBool false => Some (Dec 0 0)
  | VNum n => Some (canonical n)
  | VStr s => Some (StringToNumber s)
  | VArr _ | VObj _ => StringToNumber <$> ToString v
  end.

(** ** The matchmaking state *)

(** A socket object of the [ws] library, by identity. *)
Definition WebSocket : Type := nat.
Bind Scope nat_scope with WebSocket.

Inductive ready_state : Type := CONNECTING | OPEN | CLOSING | CLOSED.

#[global] Instance ready_state_eq_dec : EqDecision ready_state.
Proof. solve_decision. Defined.

(** The record kept per connection: [{id, tier, tankName, roomId}]; [None]
    is JavaScript's [null]. *)
Module Client.
Record t : Type := mk {
  id : string;
  tier : option number;
  tankName : option string;
  roomId : option string
}.
End Client.

(** A room: [{hostWs, clientWs, tier}]. *)
Module Room.
Record t : Type := mk {
  hostWs : WebSocket;
  clientWs : WebSocket;
  tier : number
}.
End Room.

(** The three maps of the program, and the [readyState] of every socket
    the library has created so far. *)
Record state : Type := mkState {
  clients : gmap WebSocket Client.t;
  waitingByTier : gmap number WebSocket;
  rooms : gmap string Room.t;
  readyState : gmap WebSocket ready_state
}.

Definition init : state :=
  {| clients := ∅; waitingByTier := ∅; rooms := ∅; readyState := ∅ |}.

(** What a handler does to the sockets: [WsSend ws obj] is
    [ws.send(JSON.stringify(obj))], [WsClose ws] is [ws.close()]. *)
Inductive effect : Type :=
| WsSend (ws : WebSocket) (obj : value)
| WsClose (ws : WebSocket).

(** A handler returns with a new state and the effects it performed, or an
    exception escapes it. *)
Inductive outcome : Type :=
| Done (s : state) (out : list effect)
| Uncaught.

Definition is_open (s : state) (ws : WebSocket) : bool :=
  bool_decide (readyState s !! ws = Some OPEN).

(** [function send(ws, obj)]: nothing is sent on a socket that is not
    open. *)
Definition send (s : state) (ws : WebSocket) (obj : value) : list effect :=
  if is_open s ws then [WsSend ws obj] else [].

(** [ws.close()] of the library: an open socket starts closing, any other
    stays as it is. *)
Definition close (s : state) (ws : WebSocket) : state :=
  if is_open s ws then
    {| clients := clients s; waitingByTier := waitingByTier s;
       rooms := rooms s; readyState := <[ws := CLOSING]> (readyState s) |}
  else s.

(** The objects the server sends. *)
Definition welcome (id : string) : value :=
  VObj [("type", VStr "welcome"); ("id", VStr id)].
Definition info (text : string) : value :=
  VObj [("type", VStr "info"); ("text", VStr text)].
Definition matched (roomId hostId peerId : string) : value :=
  VObj [("type", VStr "matched"); ("roomId", VStr roomId);
        ("hostId", VStr hostId); ("peerId", VStr peerId)].
Definition hostStart : value := VObj [("type", VStr "hostStart")].
Definition relayed (type payload : value) : value :=
  VObj [("type", type); ("payload", payload)].

(** Truthiness of [c.roomId]: [null] and the empty string are falsy. *)
Definition has_roomId (c : Client.t) : option string :=
  match Client.roomId c with
  | Some r => if String.eqb r "" then None else Some r
  | None => None
  end.

(** ** [cleanup] *)

(** [(room.hostWs === ws) ? room.clientWs : room.hostWs]: for a member [ws]
    of the room, the other member. *)
Definition other (room : Room.t) (ws : WebSocket) : WebSocket :=
  if decide (Room.hostWs room = ws) then Room.clientWs room else Room.hostWs room.

Definition cleanup (s : state) (ws : WebSocket) : state * list effect :=
  match clients s !! ws with
  | None => (s, [])
  | Some c =>
      let waiting' :=
        match Client.tier c with
        | Some t =>
            if decide (waitingByTier s !! t = Some ws)
            then delete t (waitingByTier s) else waitingByTier s
        | None => waitingByTier s
        end in
      let s1 := {| clients := clients s; waitingByTier := waiting';
                   rooms := rooms s; readyState := readyState s |} in
      let '(s2, out) :=
        match has_roomId c with
        | Some r =>
            match rooms s1 !! r with
            | Some room =>
                let s' := close s1 (other room ws) in
                ({| clients := clients s'; waitingByTier := waitingByTier s';
                    rooms := delete r (rooms s'); readyState := readyState s' |},
                 send s1 (other room ws) (info "Opponent disconnected.")
                 ++ [WsClose (other room ws)])
            | None => (s1, [])
            end
        | None => (s1, [])
        end in
      ({| clients := delete ws (clients s2); waitingByTier := waitingByTier s2;
          rooms := rooms s2; readyState := readyState s2 |}, out)
  end.

(** ** The handlers of a connection *)

(** [uid()], that is [Math.random().toString(36).slice(2, 10)], returns at
    most eight digits in base 36.  The handlers below take the outcome of
    each call as an argument; [is_uid] tells the strings a call can
    return. *)
Definition is_base36 (a : ascii) : bool :=
  let n := Z.of_nat (nat_of_ascii a) in
  ((48 <=? n) && (n <=? 57)) || ((97 <=? n) && (n <=? 122)).

Definition is_uid (x : string) : bool :=
  (String.length x <=? 8)%nat && forallb is_base36 (list_ascii_of_string x).

(** [wss.on("connection")]; [id] is the outcome of [uid()], which draws it
    from [Math.random()]. *)
Definition on_connection (s : state) (ws : WebSocket) (id : string)
  : state * list effect :=
  let s' := {| clients := <[ws := Client.mk id None None None]> (clients s);
               waitingByTier := waitingByTier s; rooms := rooms s;
               readyState := readyState s |} in
  (s', send s' ws (welcome id)).

(** [v === lit] for a string literal. *)
Definition is_string (v : value) (lit : string) : bool :=
  match v with
  | VStr x => String.eqb x lit
  | _ => false
  end.

(** [Number(msg.tier || 1)] and [String(msg.tankName || "Tank")]. *)
Definition join_tier (msg : value) : option number :=
  Get msg "tier" ≫= λ v, ToNumber (or_else v (VNum (Dec 1 0))).

Definition join_name (msg : value) : option string :=
  Get msg "tankName" ≫= λ v, ToString (or_else v (VStr "Tank")).

(** The [join] branch; [rid] is the outcome of the [uid()] call that names
    the room.  A TypeError of either conversion escapes the handler.  The
    record [c] is shared with the map, so that the assignments to [c.tier],
    [c.tankName] and [roomId] update [clients]. *)
Definition on_join (s : state) (ws : WebSocket) (c : Client.t) (msg : value)
    (rid : string) : outcome :=
  match join_tier msg with
  | None => Uncaught
  | Some t =>
  match join_name msg with
  | None => Uncaught
  | Some name =>
      let c := Client.mk (Client.id c) (Some t) (Some name) (Client.roomId c) in
      let cs := <[ws := c]> (clients s) in
      let searching :=
        Done {| clients := cs; waitingByTier := <[t := ws]> (waitingByTier s);
                rooms := rooms s; readyState := readyState s |}
             (send s ws (info "Searching for opponent (same tier)...")) in
      match waitingByTier s !! t with
      | Some waiting =>
          if decide (waiting = ws) then searching
          else
            match cs !! waiting with
            | Some host =>
                let host' := Client.mk (Client.id host) (Client.tier host)
                               (Client.tankName host) (Some rid) in
                let client' := Client.mk (Client.id c) (Client.tier c)
                                 (Client.tankName c) (Some rid) in
                Done {| clients := <[ws := client']> (<[waiting := host']> cs);
                        waitingByTier := delete t (waitingByTier s);
                        rooms := <[rid := Room.mk waiting ws t]> (rooms s);
                        readyState := readyState s |}
                     (send s waiting (matched rid (Client.id host) (Client.id c))
                      ++ send s ws (matched rid (Client.id host) (Client.id host))
                      ++ send s waiting hostStart
                      ++ send s ws (info "Waiting for host to start…"))
            | None => searching
            end
      | None => searching
      end
  end
  end.

(** The [input] branch. *)
Definition on_input (s : state) (ws : WebSocket) (c : Client.t) (msg : value)
  : outcome :=
  match has_roomId c with
  | None => Done s []
  | Some r =>
      match rooms s !! r with
      | None => Done s []
      | Some room =>
          if decide (Room.hostWs room = ws) then Done s []
          else
            match Get msg "payload" with
            | Some p =>
                Done s (send s (Room.hostWs room)
                          (relayed (VStr "input") (or_else p (VObj []))))
            | None => Uncaught
            end
      end
  end.

(** The [init] / [snapshot] branch; [type] is [msg.type]. *)
Definition on_state (s : state) (ws : WebSocket) (c : Client.t) (msg type : value)
  : outcome :=
  match has_roomId c with
  | None => Done s []
  | Some r =>
      match rooms s !! r with
      | None => Done s []
      | Some room =>
          if decide (Room.hostWs room = ws) then
            match Get msg "payload" with
            | Some p =>
                Done s (send s (Room.clientWs room)
                          (relayed type (or_else p (VObj []))))
            | None => Uncaught
            end
          else Done s []
      end
  end.

(** [ws.on("message")].  [buf] is the outcome of
    [JSON.parse(buf.toString("utf8"))]: [None] when it throws. *)
Definition on_message (s : state) (ws : WebSocket) (buf : option value)
    (rid : string) : outcome :=
  match buf with
  | None => Done s []
  | Some msg =>
      match clients s !! ws with
      | None => Done s []
      | Some c =>
          match Get msg "type" with
          | None => Uncaught
          | Some type =>
              if is_string type "join" then on_join s ws c msg rid
              else if is_string type "input" then on_input s ws c msg
              else if is_string type "init" || is_string type "snapshot"
                   then on_state s ws c msg type
              else Done s []
          end
      end
  end.

(** ** Events and runs *)

(** What the [ws] library reports, one event at a time.  [Connection]
    hands over a new, open socket.  [SocketClose] and [SocketError] are the
    [close] and [error] events, which both run [cleanup]; the library has
    marked the socket closed before the first and closing before the
    second.  [PeerClosing] is the arrival of the peer's close frame, after
    which the socket is closing until its [close] event; no handler of the
    program runs for it. *)
Inductive event : Type :=
| Connection (ws : WebSocket) (id : string)
| Message (ws : WebSocket) (buf : option value) (rid : string)
| SocketClose (ws : WebSocket)
| SocketError (ws : WebSocket)
| PeerClosing (ws : WebSocket).

Definition created (s : state) (ws : WebSocket) : bool :=
  bool_decide (is_Some (readyState s !! ws)).

Definition set_readyState (s : state) (ws : WebSocket) (r : ready_state) : state :=
  {| clients := clients s; waitingByTier := waitingByTier s; rooms := rooms s;
     readyState := <[ws := r]> (readyState s) |}.

(** One event.  [None]: the event cannot happen (a [Connection] reuses a
    socket, or the socket of another event was never created), or an
    exception escaped the handler, which ends the process. *)
Definition step (s : state) (e : event) : option (state * list effect) :=
  match e with
  | Connection ws id =>
      if created s ws then None
      else Some (on_connection (set_readyState s ws OPEN) ws id)
  | Message ws buf rid =>
      if created s ws then
        match on_message s ws buf rid with
        | Done s' out => Some (s', out)
        | Uncaught => None
        end
      else None
  | SocketClose ws =>
      if created s ws then Some (cleanup (set_readyState s ws CLOSED) ws) else None
  | SocketError ws =>
      if created s ws then Some (cleanup (close s ws) ws) else None
  | PeerClosing ws =>
      if created s ws then Some (close s ws, []) else None
  end.

Fixpoint run (s : state) (es : list event) : option (state * list effect) :=
  match es with
  | [] => Some (s, [])
  | e :: es' =>
      '(s1, out1) ← step s e;
      '(s2, out2) ← run s1 es';
      Some (s2, out1 ++ out2)
  end.

(** The state a run from [init] ends in, and the effects of the run. *)
Definition state_after (es : list event) : option state := fst <$> run init es.

Definition effects_of (es : list event) : option (list effect) := snd <$> run init es.

Definition reachable (s : state) : Prop := ∃ es, state_after es = Some s.

(** ** Sample messages and runs *)

(** A join request as a client writes it. *)
Definition join_msg (tier tankName : value) : value :=
  VObj [("type", VStr "join"); ("tier", tier); ("tankName", tankName)].

Definition relay_msg (type : string) (payload : value) : value :=
  VObj [("type", VStr type); ("payload", payload)].

Definition tier_1 : number := Dec 1 0.
Definition tier_2 : number := Dec 2 0.

(** Two connections join tier 1 one after the other and are paired in room
    [r8u2c5vn], socket 1 as host and socket 2 as client. *)
Definition two_joined : list event :=
  [Connection 1 "k3x9a2bq";
   Message 1 (Some (join_msg (VNum tier_1) (VStr "X"))) "zzzzzzzz";
   Connection 2 "p07wm1de";
   Message 2 (Some (join_msg (VNum tier_1) (VStr "Y"))) "r8u2c5vn"].

(** Socket 1 connects and joins tier 1, where it waits. *)
Definition single_join : list event :=
  [Connection 1 "k3x9a2bq";
   Message 1 (Some (join_msg (VNum tier_1) (VStr "X"))) "zzzzzzzz"].

(** Socket 2 waits on tier 1 while socket 1 is connected as well. *)
Definition one_waiting : state :=
  default init (state_after
    [Connection 1 "k3x9a2bq"; Connection 2 "p07wm1de";
     Message 2 (Some (join_msg (VNum tier_1) (VStr "Y"))) "zzzzzzzz"]).

(** The room of [two_joined]. *)
Definition paired : state := default init (state_after two_joined).

(** Socket 1, host of the room of [two_joined], sends a second join
    request, for tier 2; then socket 3 connects and joins tier 2. *)
Definition joined_again : list event :=
  two_joined ++ [Message 1 (Some (join_msg (VNum tier_2) (VStr "X"))) "zzzzzzzz"].

Definition second_room : list event :=
  joined_again ++
  [Connection 3 "w5n0q8ft";
   Message 3 (Some (join_msg (VNum tier_2) (VStr "Z"))) "h4t6y1s0"].

(** Socket 1 joins tier 1 and then tier 2, with nobody else around. *)
Definition two_tiers : list event :=
  [Connection 1 "k3x9a2bq";
   Message 1 (Some (join_msg (VNum tier_1) (VStr "X"))) "zzzzzzzz";
   Message 1 (Some (join_msg (VNum tier_2) (VStr "X"))) "zzzzzzzz"].

(** A join request whose tier is the string [abc] and whose name is the
    boolean [true]. *)
Definition odd_join : list event :=
  [Connection 1 "k3x9a2bq";
   Message 1 (Some (join_msg (VStr "abc") (VBool true))) "zzzzzzzz"].

(** ** Vocabulary of the properties *)

(** The message, if it was parsed, is a join request. *)
Definition is_join (buf : option value) : bool :=
  match buf ≫= λ msg, Get msg "type" with
  | Some type => is_string type "join"
  | None => false
  end.

(** [ws] is the host or the client of [room]. *)
Definition member (ws : WebSocket) (room : Room.t) : Prop :=
  Room.hostWs room = ws ∨ Room.clientWs room = ws.

(** Every room has two different members. *)
Definition distinct_members (s : state) : Prop :=
  ∀ r room, rooms s !! r = Some room → Room.hostWs room ≠ Room.clientWs room.

(** The connection an event brings a join request from, if it does. *)
Definition joiner (e : event) : option WebSocket :=
  match e with
  | Message ws buf _ => if is_join buf then Some ws else None
  | _ => None
  end.

(** No connection sends more than one join request in the run. *)
Definition joins_once (es : list event) : Prop := NoDup (omap joiner es).

(** [ws] has sent a join request in the run. *)
Definition joined (ws : WebSocket) (es : list event) : Prop :=
  ws ∈ omap joiner es.

(** What holds of the state after a run in which every connection has
    joined at most once: a recorded waiter is a registered connection that
    has joined, whose recorded tier is the tier of the slot and which is in
    no room; a member of a room has joined and, while it is registered, its
    room reference names that room. *)
Record consistent (es : list event) (s : state) : Prop := {
  waiter_ok : ∀ t w, waitingByTier s !! t = Some w →
    joined w es
    ∧ (∃ c, clients s !! w = Some c ∧ Client.tier c = Some t)
    ∧ (∀ r room, rooms s !! r = Some room → ¬ member w room);
  member_ok : ∀ r room ws, rooms s !! r = Some room → member ws room →
    joined ws es
    ∧ (∀ c, clients s !! ws = Some c → Client.roomId c = Some r);
  joined_created : ∀ ws, joined ws es → is_Some (readyState s !! ws)
}.

(** ** Vocabulary of further properties *)

(** The objects sent to [ws] among the effects, in order. *)
Definition sent_to (ws : WebSocket) (out : list effect) : list value :=
  omap (λ e, match e with
             | WsSend w obj => if decide (w = ws) then Some obj else None
             | WsClose _ => None
             end) out.

(** The socket of every registered connection is open or closing. *)
Definition live_registry (s : state) : Prop :=
  ∀ ws c, clients s !! ws = Some c →
    readyState s !! ws = Some OPEN ∨ readyState s !! ws = Some CLOSING.

(** The recorded tier of every registered member of a room is the tier of
    the room. *)
Definition tiers_agree (s : state) : Prop :=
  ∀ r room ws c, rooms s !! r = Some room → member ws room →
    clients s !! ws = Some c → Client.tier c = Some (Room.tier room).

(** The identity in the record of a registered connection is the one its
    connection event drew. *)
Definition identities_kept (es : list event) (s : state) : Prop :=
  ∀ ws c, clients s !! ws = Some c → Connection ws (Client.id c) ∈ es.

(** [uid()] as a function of the text [Math.random().toString(36)]:
    [.slice(2, 10)] keeps up to eight characters from the third on. *)
Definition uid (random36 : string) : string := substring 2 8 random36.

(** ** The HTTP server *)

(** *** The [path] module (POSIX) and the string methods the handler uses *)

(** The segments of a path: the texts between its ["/"] characters. *)
Fixpoint split_path (p : string) : list string :=
  match p with
  | EmptyString => [""]
  | String c p' =>
      if Ascii.eqb c "/" then "" :: split_path p'
      else match split_path p' with
           | seg :: rest => String c seg :: rest
           | [] => [String c ""]
           end
  end.

(** One segment in [normalizeString]; the segments kept so far are held
    last first.  Empty and ["."] segments are skipped; [".."] removes the
    segment before it, and where there is none to remove it is kept in a
    relative path ([allowAboveRoot]) and skipped in an absolute one. *)
Definition push_segment (allowAboveRoot : bool) (kept : list string) (seg : string)
  : list string :=
  if String.eqb seg "" || String.eqb seg "." then kept
  else if String.eqb seg ".." then
    match kept with
    | top :: rest =>
        if String.eqb top ".." then (if allowAboveRoot then ".." :: kept else kept)
        else rest
    | [] => if allowAboveRoot then [".."] else []
    end
  else seg :: kept.

Definition normalizeString (path : string) (allowAboveRoot : bool) : string :=
  String.concat "/" (rev (fold_left (push_segment allowAboveRoot) (split_path path) [])).

Definition starts_with_slash (p : string) : bool :=
  match p with
  | String c _ => Ascii.eqb c "/"
  | EmptyString => false
  end.

Fixpoint ends_with_slash (p : string) : bool :=
  match p with
  | EmptyString => false
  | String c EmptyString => Ascii.eqb c "/"
  | String _ p' => ends_with_slash p'
  end.

(** [path.normalize] *)
Definition normalize (path : string) : string :=
  if String.eqb path "" then "."
  else
    let isAbsolute := starts_with_slash path in
    let trailingSeparator := ends_with_slash path in
    let p := normalizeString path (negb isAbsolute) in
    if String.eqb p "" then
      if isAbsolute then "/" else if trailingSeparator then "./" else "."
    else
      let p := if trailingSeparator then p +:+ "/" else p in
      if isAbsolute then "/" +:+ p else p.

(** [path.join]: the arguments that are not empty, joined by ["/"] and
    normalized. *)
Definition join (parts : list string) : string :=
  match filter (λ x, x ≠ "") parts with
  | [] => "."
  | kept => normalize (String.concat "/" kept)
  end.

(** The text before the last ["."] of a name and the text from that dot
    on. *)
Fixpoint split_extension (name : string) : option (string * string) :=
  match name with
  | EmptyString => None
  | String c name' =>
      match split_extension name' with
      | Some (stem, ext) => Some (String c stem, ext)
      | None => if Ascii.eqb c "." then Some ("", name) else None
      end
  end.

Fixpoint strip_trailing_slashes (p : string) : string :=
  match p with
  | EmptyString => ""
  | String c p' =>
      let r := strip_trailing_slashes p' in
      if Ascii.eqb c "/" && String.eqb r "" then "" else String c r
  end.

(** [path.extname]: from the last ["."] of the last portion of the path to
    its end; empty when that portion has no dot, starts with its only dot,
    or is [".."]. *)
Definition extname (path : string) : string :=
  let name := List.last (split_path (strip_trailing_slashes path)) "" in
  match split_extension name with
  | Some (stem, ext) =>
      if String.eqb stem "" || String.eqb name ".." then "" else ext
  | None => ""
  end.

(** [toLowerCase], on ASCII letters. *)
Definition lower_ascii (c : ascii) : ascii :=
  let n := nat_of_ascii c in
  if ((65 <=? n) && (n <=? 90))%nat then ascii_of_nat (n + 32) else c.

Fixpoint toLowerCase (x : string) : string :=
  match x with
  | EmptyString => ""
  | String c x' => String (lower_ascii c) (toLowerCase x')
  end.

(** [.replace(/^(\.\.[\/\\])+/, "")]: the leading run of ["../"] and
    ["..\"] is removed. *)
Fixpoint strip_parents (p : string) : string :=
  match p with
  | String "." (String "." (String c rest)) =>
      if Ascii.eqb c "/" || Ascii.eqb c "\" then strip_parents rest else p
  | _ => p
  end.

(** *** Paths made of clean segments *)

Fixpoint has_char (c : ascii) (x : string) : bool :=
  match x with
  | EmptyString => false
  | String a x' => Ascii.eqb a c || has_char c x'
  end.

(** A segment that [normalize] keeps as it is: not empty, not ["."], not
    [".."], and without ["/"]. *)
Definition is_clean (seg : string) : bool :=
  negb (String.eqb seg "") && negb (String.eqb seg ".") && negb (String.eqb seg "..")
  && negb (has_char "/" seg).

(** The absolute path of the given segments; ["/"] when there is none. *)
Definition root_path (segs : list string) : string := "/" +:+ String.concat "/" segs.

(** The absolute path of clean segments, with a ["/"] at its end when
    [trailing] is set; ["/"] when there is no segment. *)
Definition rooted (segs : list string) (trailing : bool) : string :=
  match segs with
  | [] => "/"
  | _ => if trailing then root_path segs +:+ "/" else root_path segs
  end.

(** [path] lies in the directory [root_path dir]: it is that directory
    followed by clean segments, with or without a trailing ["/"]. *)
Definition inside (dir : list string) (path : string) : Prop :=
  ∃ segs, Forall (λ x, is_clean x = true) segs
          ∧ (path = root_path (dir ++ segs) ∨ path = root_path (dir ++ segs) +:+ "/").

(** The three routes the handler answers before the static branch. *)
Definition is_route (url : string) : bool :=
  String.eqb url "/healthz" || String.eqb url "/" || String.eqb url "/index.html".

(** *** The request handler *)

Record response : Type := mkResponse {
  status : Z;
  contentType : option string;
  body : string
}.

(** [PUBLIC_DIR] and [INDEX_FILE], from [__dirname]. *)
Definition PUBLIC_DIR (dirname : string) : string := join [dirname; "public"].
Definition INDEX_FILE (dirname : string) : string := join [PUBLIC_DIR dirname; "index.html"].

(** The content type of the static branch, by [ext]. *)
Definition content_type (ext : string) : string :=
  if String.eqb ext ".js" then "text/javascript"
  else if String.eqb ext ".css" then "text/css"
  else if String.eqb ext ".png" then "image/png"
  else if String.eqb ext ".jpg" || String.eqb ext ".jpeg" then "image/jpeg"
  else "application/octet-stream".

(** [filePath] of the static branch. *)
Definition file_path (dirname url : string) : string :=
  join [PUBLIC_DIR dirname; strip_parents (normalize url)].

(** The handler of [http.createServer].  [fs] holds the content of the
    files that can be read; reading any other path fails.  The result is
    the list of the paths the handler reads and the response it writes. *)
Definition handler (dirname : string) (fs : gmap string string) (url : string)
  : list string * response :=
  if String.eqb url "/healthz" then
    ([], mkResponse 200 (Some "text/plain") "ok")
  else if String.eqb url "/" || String.eqb url "/index.html" then
    match fs !! INDEX_FILE dirname with
    | Some html =>
        ([INDEX_FILE dirname], mkResponse 200 (Some "text/html; charset=utf-8") html)
    | None =>
        ([INDEX_FILE dirname], mkResponse 500 (Some "text/plain") "Missing public/index.html")
    end
  else
    let filePath := file_path dirname url in
    if negb (String.prefix (PUBLIC_DIR dirname) filePath) then
      ([], mkResponse 403 None "Forbidden")
    else
      match fs !! filePath with
      | None => ([filePath], mkResponse 404 (Some "text/plain") "Not found")
      | Some data =>
          ([filePath],
           mkResponse 200 (Some (content_type (toLowerCase (extname filePath)))) data)
      end.

(** ** Tactics *)

(** Case analysis on the event of [Hstep : step s e = Some _]: one goal per
    kind of event that is enabled, with [Hcr] telling whether the socket was
    created. *)
Ltac step_cases e Hstep Hcr :=
  destruct e as [?ws ?id|?ws ?buf ?rid|?ws|?ws|?ws]; simpl in Hstep;
  unfold created in Hstep; case_bool_decide as Hcr; try done.

(** Closed goals about the sample runs are settled by evaluation. *)
Ltac by_evaluation := vm_compute; reflexivity.

(** ** Canonical numbers *)

Lemma strip_zeros_canonical fuel m e :
  m ≠ 0 → Z.abs m < 2 ^ (Z.of_nat fuel + 1) →
  (strip_zeros fuel m e).1 mod 10 ≠ 0.
Proof.
  revert m e. induction fuel as [|fuel IH]; intros m e Hm Hlt.
  - simpl in *. assert (m = 1 ∨ m = -1) as [-> | ->] by lia; done.
  - cbn [strip_zeros]. destruct (Z.eqb_spec (m mod 10) 0) as [Hdiv|Hdiv]; [|done].
    apply Z.mod_divide in Hdiv as [k ->]; [|done].
    rewrite Z.div_mul by done. apply IH; [lia|].
    replace (Z.of_nat (S fuel) + 1) with (Z.succ (Z.of_nat fuel + 1)) in Hlt by lia.
    rewrite Z.pow_succ_r in Hlt by lia. lia.
Qed.

(** The fuel of [decimal] is enough: its result is zero, written
    [Dec 0 0], or has a significand that does not end in a zero digit. *)
Lemma decimal_canonical m e :
  ∃ m' e', decimal m e = Dec m' e' ∧ (m' = 0 ∧ e' = 0 ∨ m' mod 10 ≠ 0).
Proof.
  unfold decimal. destruct (Z.eqb_spec m 0) as [->|Hm].
  { exists 0, 0. split; [done|]. by left. }
  pose proof (strip_zeros_canonical (Z.to_nat (Z.log2 (Z.abs m))) m e Hm) as H.
  destruct (strip_zeros _ m e) as [m' e']. exists m', e'. split; [done|].
  right. apply H. rewrite Z2Nat.id by apply Z.log2_nonneg.
  apply Z.log2_spec. lia.
Qed.

(** ** The built-in conversions on samples *)

Example StringToNumber_samples :
  map StringToNumber ["abc"; " 12 "; "1.50"; "-0"; ".5e1"; "0x1F"; "-0x10"; "1e"; "";
                      "-Infinity"; "12px"; "1,2"]
  = [NaN; Dec 12 0; Dec 15 (-1); Dec 0 0; Dec 5 0; Dec 31 0; NaN; NaN; Dec 0 0;
     Infinity true; NaN; NaN].
Proof. by_evaluation. Qed.

Example Number_toString_samples :
  map Number_toString [Dec 15 (-1); Dec 1 21; Dec 1 20; Dec 123 (-8); Dec 123 (-9);
                       Dec (-1234) 30; Dec 0 3; NaN]
  = ["1.5"; "1e+21"; "100000000000000000000"; "0.00000123"; "1.23e-7";
     "-1.234e+33"; "0"; "NaN"].
Proof. by_evaluation. Qed.

Example ToNumber_samples :
  map ToNumber [VArr []; VArr [VNum (Dec 15 (-1))]; VArr [VStr "7"]; VObj [];
                VArr [VNum (Dec 1 0); VNum (Dec 2 0)]; VBool true; VNull;
                VObj [("toString", VNum (Dec 1 0))]]
  = [Some (Dec 0 0); Some (Dec 15 (-1)); Some (Dec 7 0); Some NaN; Some NaN;
     Some (Dec 1 0); Some (Dec 0 0); None].
Proof. by_evaluation. Qed.

Example ToString_samples :
  map ToString [VArr [VNum (Dec 1 0); VNull; VArr [VStr "a"; VBool true]; VObj []];
                VBool true; VNum (Dec 42 0)]
  = [Some "1,,a,true,[object Object]"; Some "true"; Some "42"].
Proof. by_evaluation. Qed.

(** The identities and room names of the sample runs are strings [uid()]
    can return. *)
Example sample_uids :
  forallb is_uid ["k3x9a2bq"; "p07wm1de"; "w5n0q8ft"; "r8u2c5vn"; "h4t6y1s0"; "zzzzzzzz"]
  = true.
Proof. by_evaluation. Qed.

(** ** Dispatch of a message *)

(** Two messages that make the handler throw: the text [null], whose
    [type] cannot be read, and a join request whose tier is an object with
    an own [toString] property, which [Number] cannot convert. *)
Example uncaught_samples :
  on_message paired 1 (Some VNull) "zzzzzzzz" = Uncaught
  ∧ on_message paired 1
      (Some (join_msg (VObj [("toString", VNum (Dec 1 0))]) (VStr "X"))) "zzzzzzzz"
    = Uncaught.
Proof. split; by_evaluation. Qed.

Lemma on_message_join s ws c msg rid :
  clients s !! ws = Some c →
  Get msg "type" = Some (VStr "join") →
  on_message s ws (Some msg) rid = on_join s ws c msg rid.
Proof. intros Hc Hty. unfold on_message. by rewrite Hc, Hty. Qed.



Lemma on_message_unregistered s ws buf rid :
  clients s !! ws = None → on_message s ws buf rid = Done s [].
Proof. intros H. unfold on_message. destruct buf; by rewrite ?H. Qed.

Lemma on_message_not_join s ws buf rid s' out :
  is_join buf = false → on_message s ws buf rid = Done s' out → s' = s.
Proof.
  unfold is_join, on_message.
  destruct buf as [msg|]; simpl; [|by intros _ [= <- _]].
  destruct (clients s !! ws) as [c|]; [|by intros _ [= <- _]].
  destruct (Get msg "type") as [ty|]; [|done].
  intros ->. destruct (is_string ty "input").
  { unfold on_input. repeat case_match; by intros [= <- _]. }
  destruct (_ || _); [|by intros [= <- _]].
  unfold on_state. repeat case_match; by intros [= <- _].
Qed.

Lemma on_message_is_join s ws c buf rid :
  clients s !! ws = Some c → is_join buf = true →
  ∃ msg, buf = Some msg ∧ on_message s ws buf rid = on_join s ws c msg rid.
Proof.
  unfold is_join, on_message. intros Hc.
  destruct buf as [msg|]; simpl; [|done]. rewrite Hc.
  destruct (Get msg "type") as [ty|]; [|done]. intros ->. eauto.
Qed.

(** A message that has a [type] has a [payload], possibly [undefined]. *)
Lemma Get_total msg k k' v : Get msg k = Some v → is_Some (Get msg k').
Proof. destruct msg; simpl; intros; by simplify_eq. Qed.

(** ** The branches of the message handler *)

(** The pairing branch of [on_join], and the other one. *)
Lemma on_join_pairs s ws c msg rid t name w h :
  join_tier msg = Some t → join_name msg = Some name →
  waitingByTier s !! t = Some w → w ≠ ws → clients s !! w = Some h →
  on_join s ws c msg rid =
    Done {| clients :=
              <[ws := Client.mk (Client.id c) (Some t) (Some name) (Some rid)]>
                (<[w := Client.mk (Client.id h) (Client.tier h) (Client.tankName h) (Some rid)]>
                   (<[ws := Client.mk (Client.id c) (Some t) (Some name) (Client.roomId c)]>
                      (clients s)));
            waitingByTier := delete t (waitingByTier s);
            rooms := <[rid := Room.mk w ws t]> (rooms s);
            readyState := readyState s |}
         (send s w (matched rid (Client.id h) (Client.id c))
          ++ send s ws (matched rid (Client.id h) (Client.id h))
          ++ send s w hostStart
          ++ send s ws (info "Waiting for host to start…")).
Proof.
  intros Ht Hn Hw Hne Hh. unfold on_join. rewrite Ht, Hn, Hw.
  destruct (decide (w = ws)) as [|_]; [done|].
  by rewrite lookup_insert_ne, Hh by done.
Qed.

Lemma on_join_waits s ws c msg rid t name :
  join_tier msg = Some t → join_name msg = Some name →
  (∀ w, waitingByTier s !! t = Some w → w = ws ∨ clients s !! w = None) →
  on_join s ws c msg rid =
    Done {| clients :=
              <[ws := Client.mk (Client.id c) (Some t) (Some name) (Client.roomId c)]>
                (clients s);
            waitingByTier := <[t := ws]> (waitingByTier s);
            rooms := rooms s;
            readyState := readyState s |}
         (send s ws (info "Searching for opponent (same tier)...")).
Proof.
  intros Ht Hn Hw. unfold on_join. rewrite Ht, Hn.
  destruct (waitingByTier s !! t) as [w|] eqn:E; [|done].
  destruct (decide (w = ws)) as [|Hne]; [done|].
  destruct (Hw w eq_refl) as [|Hnone]; [done|].
  by rewrite lookup_insert_ne, Hnone by done.
Qed.

(** The two ways a join request ends, by the maps of the new state. *)
Lemma on_join_inv s ws c msg rid s' out :
  on_join s ws c msg rid = Done s' out →
  ∃ t name,
    readyState s' = readyState s
    ∧ ((clients s' = <[ws := Client.mk (Client.id c) (Some t) (Some name) (Client.roomId c)]>
                       (clients s)
        ∧ waitingByTier s' = <[t := ws]> (waitingByTier s)
        ∧ rooms s' = rooms s)
       ∨ (∃ w h,
            waitingByTier s !! t = Some w ∧ w ≠ ws ∧ clients s !! w = Some h
            ∧ clients s' =
                <[ws := Client.mk (Client.id c) (Some t) (Some name) (Some rid)]>
                  (<[w := Client.mk (Client.id h) (Client.tier h) (Client.tankName h) (Some rid)]>
                     (clients s))
            ∧ waitingByTier s' = delete t (waitingByTier s)
            ∧ rooms s' = <[rid := Room.mk w ws t]> (rooms s))).
Proof.
  unfold on_join.
  destruct (join_tier msg) as [t|]; [|done].
  destruct (join_name msg) as [name|]; [|done].
  intros H. exists t, name.
  destruct (waitingByTier s !! t) as [w|] eqn:Hw.
  - destruct (decide (w = ws)) as [->|Hne].
    { injection H as <- _. split; [done|]. by left. }
    rewrite lookup_insert_ne in H by done.
    destruct (clients s !! w) as [h|] eqn:Hh.
    + injection H as <- _. split; [done|]. right. exists w, h.
      split_and!; try done. simpl.
      rewrite (insert_insert_ne _ w ws) by done. by rewrite insert_insert_eq.
    + injection H as <- _. split; [done|]. by left.
  - injection H as <- _. split; [done|]. by left.
Qed.



(** ** [close] and [cleanup] *)

Lemma close_maps s ws :
  clients (close s ws) = clients s
  ∧ waitingByTier (close s ws) = waitingByTier s
  ∧ rooms (close s ws) = rooms s.
Proof. unfold close. by destruct (is_open s ws). Qed.


Lemma close_created s ws w :
  is_Some (readyState s !! w) → is_Some (readyState (close s ws) !! w).
Proof.
  unfold close. destruct (is_open s ws); [|done]. simpl.
  intros H. destruct (decide (ws = w)) as [->|Hne].
  - rewrite lookup_insert_eq. eauto.
  - by rewrite lookup_insert_ne.
Qed.

Lemma set_readyState_created s ws r w :
  is_Some (readyState s !! w) → is_Some (readyState (set_readyState s ws r) !! w).
Proof.
  simpl. intros H. destruct (decide (ws = w)) as [->|?].
  - rewrite lookup_insert_eq. eauto.
  - by rewrite lookup_insert_ne.
Qed.

Lemma cleanup_inv s ws s' out :
  cleanup s ws = (s', out) →
  match clients s !! ws with
  | None => s' = s
  | Some c =>
      clients s' = delete ws (clients s)
      ∧ (∀ t w, waitingByTier s' !! t = Some w →
           waitingByTier s !! t = Some w ∧ ¬ (w = ws ∧ Client.tier c = Some t))
      ∧ (∀ r room, rooms s' !! r = Some room → rooms s !! r = Some room)
      ∧ (∀ w, is_Some (readyState s !! w) → is_Some (readyState s' !! w))
  end.
Proof.
  unfold cleanup. destruct (clients s !! ws) as [c|]; [|by intros [= <- _]].
  cbv zeta.
  set (s1 := mkState (clients s) _ (rooms s) (readyState s)).
  assert (∀ t w, waitingByTier s1 !! t = Some w →
            waitingByTier s !! t = Some w ∧ ¬ (w = ws ∧ Client.tier c = Some t)) as Hq.
  { intros t w. subst s1. cbn [waitingByTier].
    destruct (Client.tier c) as [t0|]; [|naive_solver].
    destruct (decide (waitingByTier s !! t0 = Some ws)) as [Heq|Hne].
    - rewrite lookup_delete_Some. naive_solver.
    - naive_solver. }
  assert (clients s1 = clients s) as Hc1 by done.
  assert (rooms s1 = rooms s) as Hr1 by done.
  assert (readyState s1 = readyState s) as Hs1 by done.
  clearbody s1.
  destruct (has_roomId c) as [r|].
  - destruct (rooms s1 !! r) as [room|] eqn:Hroom.
    + destruct (close_maps s1 (other room ws)) as (Hcl & Hw & Hro).
      intros [= <- _]. cbn [clients waitingByTier rooms readyState].
      rewrite Hcl, Hw, Hro, Hc1, Hr1. split_and!; [done|done| |].
      * intros r' room'. rewrite lookup_delete_Some. naive_solver.
      * intros w Hw'. apply close_created. by rewrite Hs1.
    + intros [= <- _]. cbn [clients waitingByTier rooms readyState].
      rewrite Hc1, Hr1, Hs1. done.
  - intros [= <- _]. cbn [clients waitingByTier rooms readyState].
    rewrite Hc1, Hr1, Hs1. done.
Qed.

(** ** Runs *)

Lemma run_app s es1 es2 :
  run s (es1 ++ es2) =
    '(s1, out1) ← run s es1; '(s2, out2) ← run s1 es2; Some (s2, out1 ++ out2).
Proof.
  revert s. induction es1 as [|e es1 IH]; intros s; simpl.
  - destruct (run s es2) as [[s2 out2]|]; done.
  - destruct (step s e) as [[s1 out1]|]; simpl; [|done].
    rewrite IH. destruct (run s1 es1) as [[s1' out1']|]; simpl; [|done].
    destruct (run s1' es2) as [[s2 out2]|]; simpl; [|done].
    by rewrite app_assoc.
Qed.

Lemma state_after_snoc es e s' :
  state_after (es ++ [e]) = Some s' →
  ∃ s out, state_after es = Some s ∧ step s e = Some (s', out).
Proof.
  unfold state_after. rewrite run_app.
  destruct (run init es) as [[s out]|]; simpl; [|done].
  destruct (step s e) as [[s1 out1]|] eqn:E; simpl; [|done].
  intros [= <-]. eauto.
Qed.

Lemma step_distinct_members s e s' out :
  distinct_members s → step s e = Some (s', out) → distinct_members s'.
Proof.
  intros Hd Hstep. step_cases e Hstep Hcr.
  - by injection Hstep as <- _.
  - destruct (on_message s ws buf rid) as [s1 out1|] eqn:Hm; [|done].
    injection Hstep as <- <-.
    destruct (clients s !! ws) as [c|] eqn:Hc.
    + destruct (is_join buf) eqn:Hj.
      * destruct (on_message_is_join s ws c buf rid Hc Hj) as (msg & -> & Heq).
        rewrite Heq in Hm.
        apply on_join_inv in Hm
          as (t & name & _ & [(_ & _ & Hr) | (w & h & _ & Hne & _ & _ & _ & Hr)]);
          intros r room; rewrite Hr; [by apply Hd|].
        destruct (decide (rid = r)) as [<-|?].
        -- rewrite lookup_insert_eq. by intros [= <-].
        -- rewrite lookup_insert_ne by done. apply Hd.
      * by apply (on_message_not_join _ _ _ _ _ _ Hj) in Hm as ->.
    + rewrite on_message_unregistered in Hm by done. by injection Hm as <- _.
  - injection Hstep as Hstep. apply cleanup_inv in Hstep. cbn [clients set_readyState] in Hstep.
    destruct (clients s !! ws) as [c|]; [|by subst].
    destruct Hstep as (_ & _ & Hr & _). intros r room H%Hr. by apply (Hd r).
  - injection Hstep as Hstep. apply cleanup_inv in Hstep.
    destruct (close_maps s ws) as (Hcl & _ & Hro). rewrite Hcl in Hstep.
    destruct (clients s !! ws) as [c|].
    + destruct Hstep as (_ & _ & Hr & _). intros r room H%Hr.
      rewrite Hro in H. by apply (Hd r).
    + subst. intros r room. rewrite Hro. apply Hd.
  - injection Hstep as <- _. destruct (close_maps s ws) as (_ & _ & Hro).
    intros r room. rewrite Hro. apply Hd.
Qed.

(** In every reachable state the host and the client of a room are two
    different connections. *)
Lemma reachable_distinct_members s : reachable s → distinct_members s.
Proof.
  intros [es Hrun]. revert s Hrun.
  induction es as [|e es IH] using rev_ind; intros s Hrun.
  - injection Hrun as <-. intros r room. simpl. by rewrite lookup_empty.
  - apply state_after_snoc in Hrun as (s0 & out & Hrun & Hstep).
    eapply step_distinct_members; eauto.
Qed.

Lemma reachable_paired : reachable paired.
Proof. exists two_joined. by_evaluation. Qed.

(** ** Pairing *)



(** C1 (amended): for every successful pairing (a join request of a
    registered connection [ws] whose tier has another registered connection
    [w] waiting), the room [rid] is recorded with [w] as host and [ws] as
    client, and the server sends, in this order and each through [send]: to
    the host a [matched] notice with the room id, [hostId] the host's
    identity and [peerId] the client's identity; to the client a [matched]
    notice with the room id, [hostId] the host's identity and [peerId] the
    host's identity again, the identity of the client's opponent; then
    [hostStart] to the host and an [info] notice to the client. *)
Theorem matched_notices s ws c msg rid t name w h :
  clients s !! ws = Some c →
  Get msg "type" = Some (VStr "join") →
  join_tier msg = Some t →
  join_name msg = Some name →
  waitingByTier s !! t = Some w →
  w ≠ ws →
  clients s !! w = Some h →
  ∃ s', on_message s ws (Some msg) rid =
          Done s' (send s w (matched rid (Client.id h) (Client.id c))
                   ++ send s ws (matched rid (Client.id h) (Client.id h))
                   ++ send s w hostStart
                   ++ send s ws (info "Waiting for host to start…"))
        ∧ rooms s' !! rid = Some (Room.mk w ws t).
Proof.
  intros Hc Hty Ht Hn Hw Hne Hh.
  rewrite (on_message_join _ _ _ _ _ Hc Hty).
  rewrite (on_join_pairs _ _ _ _ _ _ _ _ _ Ht Hn Hw Hne Hh).
  eexists; split; [done|]. simpl. by rewrite lookup_insert_eq.
Qed.

Lemma matched_notices_witness :
  ∃ s', on_message one_waiting 1 (Some (join_msg (VNum tier_1) (VStr "X"))) "r8u2c5vn" =
          Done s' [WsSend 2 (matched "r8u2c5vn" "p07wm1de" "k3x9a2bq");
                   WsSend 1 (matched "r8u2c5vn" "p07wm1de" "p07wm1de");
                   WsSend 2 hostStart;
                   WsSend 1 (info "Waiting for host to start…")]
        ∧ rooms s' !! "r8u2c5vn" = Some (Room.mk 2 1 tier_1).
Proof.
  apply (matched_notices one_waiting 1 (Client.mk "k3x9a2bq" None None None)
           (join_msg (VNum tier_1) (VStr "X")) "r8u2c5vn" tier_1 "X" 2
           (Client.mk "p07wm1de" (Some tier_1) (Some "Y") None));
    first [ lia | by_evaluation ].
Defined.

(** C1, as stated, fails: in the run [two_joined] the client is socket 2,
    whose identity is [p07wm1de], and the [matched] notice it is sent names
    the host [k3x9a2bq] in both [hostId] and [peerId]. *)
Lemma client_notice_names_host_twice :
  effects_of two_joined =
    Some [WsSend 1 (welcome "k3x9a2bq");
          WsSend 1 (info "Searching for opponent (same tier)...");
          WsSend 2 (welcome "p07wm1de");
          WsSend 1 (matched "r8u2c5vn" "k3x9a2bq" "p07wm1de");
          WsSend 2 (matched "r8u2c5vn" "k3x9a2bq" "k3x9a2bq");
          WsSend 1 hostStart;
          WsSend 2 (info "Waiting for host to start…")]
  ∧ matched "r8u2c5vn" "k3x9a2bq" "k3x9a2bq" ≠ matched "r8u2c5vn" "k3x9a2bq" "p07wm1de".
Proof. split; [by_evaluation | discriminate]. Qed.

(** C9: at every reachable state the tier queue records at most one
    connection as waiting for any tier value, and processing a join request
    for tier [t] either consumes the waiter there was for [t], leaving the
    slot empty, or installs the requester as the one waiter of [t]; the
    slots of the other tiers stay as they are. *)
Theorem one_waiter_per_tier s :
  reachable s →
  (∀ t w1 w2,
     waitingByTier s !! t = Some w1 → waitingByTier s !! t = Some w2 → w1 = w2)
  ∧ (∀ ws c msg rid t s' out,
       clients s !! ws = Some c →
       Get msg "type" = Some (VStr "join") →
       join_tier msg = Some t →
       on_message s ws (Some msg) rid = Done s' out →
       (∃ w, waitingByTier s !! t = Some w ∧ w ≠ ws
             ∧ waitingByTier s' = delete t (waitingByTier s)
             ∧ waitingByTier s' !! t = None)
       ∨ (waitingByTier s' = <[t := ws]> (waitingByTier s)
          ∧ waitingByTier s' !! t = Some ws)).
Proof.
  intros _. split; [congruence|].
  intros ws c msg rid t s' out Hc Hty Ht.
  rewrite (on_message_join _ _ _ _ _ Hc Hty). unfold on_join. rewrite Ht.
  destruct (join_name msg) as [name|]; [|done].
  destruct (waitingByTier s !! t) as [w|] eqn:Hw.
  - destruct (decide (w = ws)) as [->|Hne].
    { intros [= <- _]. right. simpl. by rewrite lookup_insert_eq. }
    destruct (_ !! w) as [h|].
    + intros [= <- _]. left. exists w. simpl. by rewrite lookup_delete_eq.
    + intros [= <- _]. right. simpl. by rewrite lookup_insert_eq.
  - intros [= <- _]. right. simpl. by rewrite lookup_insert_eq.
Qed.

Lemma one_waiter_per_tier_witness :
  (∀ t w1 w2,
     waitingByTier one_waiting !! t = Some w1 → waitingByTier one_waiting !! t = Some w2 →
     w1 = w2)
  ∧ (∀ ws c msg rid t s' out,
       clients one_waiting !! ws = Some c →
       Get msg "type" = Some (VStr "join") →
       join_tier msg = Some t →
       on_message one_waiting ws (Some msg) rid = Done s' out →
       (∃ w, waitingByTier one_waiting !! t = Some w ∧ w ≠ ws
             ∧ waitingByTier s' = delete t (waitingByTier one_waiting)
             ∧ waitingByTier s' !! t = None)
       ∨ (waitingByTier s' = <[t := ws]> (waitingByTier one_waiting)
          ∧ waitingByTier s' !! t = Some ws)).
Proof.
  apply (one_waiter_per_tier one_waiting).
  exists [Connection 1 "k3x9a2bq"; Connection 2 "p07wm1de";
          Message 2 (Some (join_msg (VNum tier_1) (VStr "Y"))) "zzzzzzzz"].
  by_evaluation.
Defined.

(** ** Coercion of the fields of a join request *)

(** C4 (amended): a join request is never rejected and no error is reported
    for it: whenever the conversions [Number(msg.tier || 1)] and
    [String(msg.tankName || "Tank")] return, the handler returns, all it
    sends are [info], [matched] and [hostStart] notices, and the connection's
    recorded tier and name are the results of these conversions.  The tier
    is the default 1 when the supplied value is absent or falsy ([null],
    [false], 0, the empty string) and the supplied number when that is a
    number other than zero; the name is the default ["Tank"] when the
    supplied value is absent or falsy and the supplied string when that is a
    string other than the empty one.  Any other value is converted, not
    replaced by the default. *)
Theorem join_coercion s ws c msg rid tierv namev t name :
  clients s !! ws = Some c →
  Get msg "type" = Some (VStr "join") →
  Get msg "tier" = Some tierv →
  Get msg "tankName" = Some namev →
  join_tier msg = Some t →
  join_name msg = Some name →
  ∃ s' out,
    on_message s ws (Some msg) rid = Done s' out
    ∧ (∃ room, clients s' !! ws = Some (Client.mk (Client.id c) (Some t) (Some name) room))
    ∧ (ToBoolean tierv = false → t = Dec 1 0)
    ∧ (∀ n, tierv = VNum n → ToBoolean tierv = true → t = canonical n)
    ∧ (ToBoolean namev = false → name = "Tank")
    ∧ (∀ x, namev = VStr x → x ≠ "" → name = x)
    ∧ (∀ e, e ∈ out → ∃ to obj type,
         e = WsSend to obj ∧ Get obj "type" = Some (VStr type)
         ∧ type ∈ ["info"; "matched"; "hostStart"]).
Proof.
  intros Hc Hty Htier Hname Ht Hn.
  rewrite (on_message_join _ _ _ _ _ Hc Hty).
  assert (∃ s' out, on_join s ws c msg rid = Done s' out
            ∧ (∃ room, clients s' !! ws = Some (Client.mk (Client.id c) (Some t) (Some name) room))
            ∧ (∀ e, e ∈ out → ∃ to obj type,
                 e = WsSend to obj ∧ Get obj "type" = Some (VStr type)
                 ∧ type ∈ ["info"; "matched"; "hostStart"])) as (s' & out & -> & Hrec & Hout).
  { assert (∀ to text e, e ∈ send s to (info text) → ∃ to obj type,
              e = WsSend to obj ∧ Get obj "type" = Some (VStr type)
              ∧ type ∈ ["info"; "matched"; "hostStart"]) as Hinfo.
    { intros to text e. unfold send. destruct (is_open s to); [|by intros ?%elem_of_nil].
      intros ->%list_elem_of_singleton. exists to, (info text), "info".
      split_and!; [done..|set_solver]. }
    destruct (waitingByTier s !! t) as [w|] eqn:Hw.
    - destruct (decide (w = ws)) as [->|Hne].
      + rewrite (on_join_waits _ _ _ _ _ _ _ Ht Hn) by (intros ?; rewrite Hw; naive_solver).
        do 2 eexists. split_and!; [done| |by eauto].
        simpl. rewrite lookup_insert_eq. eauto.
      + destruct (clients s !! w) as [h|] eqn:Hh.
        * rewrite (on_join_pairs _ _ _ _ _ _ _ _ _ Ht Hn Hw Hne Hh).
          do 2 eexists. split_and!; [done| |].
          { simpl. rewrite lookup_insert_eq. eauto. }
          intros e. rewrite !elem_of_app. unfold send.
          intros [He|[He|[He|He]]]; revert He;
            (destruct (is_open s _); [|by intros ?%elem_of_nil]);
            intros ->%list_elem_of_singleton.
          -- eexists _, _, "matched". split_and!; [done..|set_solver].
          -- eexists _, _, "matched". split_and!; [done..|set_solver].
          -- eexists _, _, "hostStart". split_and!; [done..|set_solver].
          -- eexists _, _, "info". split_and!; [done..|set_solver].
        * rewrite (on_join_waits _ _ _ _ _ _ _ Ht Hn) by (intros ?; rewrite Hw; naive_solver).
          do 2 eexists. split_and!; [done| |by eauto].
          simpl. rewrite lookup_insert_eq. eauto.
    - rewrite (on_join_waits _ _ _ _ _ _ _ Ht Hn) by (intros ?; rewrite Hw; naive_solver).
      do 2 eexists. split_and!; [done| |by eauto].
      simpl. rewrite lookup_insert_eq. eauto. }
  exists s', out. unfold join_tier in Ht. unfold join_name in Hn.
  rewrite Htier in Ht. rewrite Hname in Hn. simpl in Ht, Hn. unfold or_else in Ht, Hn.
  split_and!; [done..| | | | |done].
  - intros E. rewrite E in Ht. vm_compute in Ht. congruence.
  - intros n -> E. rewrite E in Ht. cbn [ToNumber] in Ht. congruence.
  - intros E. rewrite E in Hn. simpl in Hn. congruence.
  - intros x -> Hx. simpl in Hn.
    destruct (String.eqb_spec x ""); [done|]. simpl in Hn. congruence.
Qed.

Lemma join_coercion_witness :
  ∃ s' out,
    on_message one_waiting 1 (Some (join_msg VNull (VStr ""))) "r8u2c5vn" = Done s' out
    ∧ (∃ room, clients s' !! 1%nat = Some (Client.mk "k3x9a2bq" (Some (Dec 1 0)) (Some "Tank") room))
    ∧ (ToBoolean VNull = false → Dec 1 0 = Dec 1 0)
    ∧ (∀ n, VNull = VNum n → ToBoolean VNull = true → Dec 1 0 = canonical n)
    ∧ (ToBoolean (VStr "") = false → "Tank" = "Tank")
    ∧ (∀ x, VStr "" = VStr x → x ≠ "" → "Tank" = x)
    ∧ (∀ e, e ∈ out → ∃ to obj type,
         e = WsSend to obj ∧ Get obj "type" = Some (VStr type)
         ∧ type ∈ ["info"; "matched"; "hostStart"]).
Proof.
  apply (join_coercion one_waiting 1 (Client.mk "k3x9a2bq" None None None)
           (join_msg VNull (VStr "")) "r8u2c5vn" VNull (VStr "") (Dec 1 0) "Tank");
    by_evaluation.
Defined.

(** C4, as stated, fails: a join request whose tier is the string [abc] and
    whose name is the boolean [true] leaves the connection with the tier
    [NaN], not 1, and the name ["true"], not ["Tank"]. *)
Lemma non_numeric_tier_is_not_defaulted :
  ∃ s, state_after odd_join = Some s
       ∧ clients s !! 1%nat = Some (Client.mk "k3x9a2bq" (Some NaN) (Some "true") None)
       ∧ NaN ≠ Dec 1 0 ∧ "true" ≠ "Tank".
Proof.
  eexists. split; [by_evaluation|].
  split; [by_evaluation|]. split; discriminate.
Qed.

(** ** Messages from a matched connection *)




(** ** Runs in which every connection joins at most once *)

Lemma joined_snoc ws es e : joined ws es → joined ws (es ++ [e]).
Proof. unfold joined. rewrite omap_app, elem_of_app. by left. Qed.

Lemma joined_last ws es e : joiner e = Some ws → joined ws (es ++ [e]).
Proof.
  intros He. unfold joined. rewrite omap_app, elem_of_app. right.
  simpl. rewrite He. by apply list_elem_of_singleton.
Qed.

Lemma joined_snoc_inv ws es e :
  joined ws (es ++ [e]) → joined ws es ∨ joiner e = Some ws.
Proof.
  unfold joined. rewrite omap_app, elem_of_app. intros [H|H]; [by left|right].
  simpl in H. destruct (joiner e); [|by apply elem_of_nil in H].
  by apply list_elem_of_singleton in H as ->.
Qed.

Lemma joins_once_snoc es e :
  joins_once (es ++ [e]) →
  joins_once es ∧ (∀ ws, joiner e = Some ws → ¬ joined ws es).
Proof.
  unfold joins_once, joined. rewrite omap_app.
  intros (H1 & H2 & _)%NoDup_app. split; [done|].
  intros ws He Hin. apply (H2 ws Hin). simpl. rewrite He.
  by apply list_elem_of_singleton.
Qed.

(** The invariant does not look at [readyState] beyond the sockets it
    knows. *)
Lemma consistent_readyState es s s' :
  consistent es s →
  clients s' = clients s → waitingByTier s' = waitingByTier s → rooms s' = rooms s →
  (∀ w, is_Some (readyState s !! w) → is_Some (readyState s' !! w)) →
  consistent es s'.
Proof.
  intros [Hw Hm Hj] Hc Hq Hr Hrs. split.
  - intros t w. rewrite Hq, Hc, Hr. apply Hw.
  - intros r room ws. rewrite Hr, Hc. apply Hm.
  - intros ws Hws. by apply Hrs, Hj.
Qed.

Lemma consistent_snoc es e s :
  consistent es s →
  (∀ ws, joiner e = Some ws → is_Some (readyState s !! ws)) →
  consistent (es ++ [e]) s.
Proof.
  intros [Hw Hm Hj] He. split.
  - intros t w H. destruct (Hw t w H) as (? & ? & ?). eauto using joined_snoc.
  - intros r room ws H1 H2. destruct (Hm r room ws H1 H2). eauto using joined_snoc.
  - intros ws [H|H]%joined_snoc_inv; eauto.
Qed.

Lemma consistent_cleanup es s ws s' out :
  consistent es s → cleanup s ws = (s', out) → consistent es s'.
Proof.
  intros [Hw Hm Hj] H%cleanup_inv.
  destruct (clients s !! ws) as [c|] eqn:Hc; [|by subst].
  destruct H as (Hcl & Hq & Hr & Hrs). split.
  - intros t w [H1 H2]%Hq. destruct (Hw t w H1) as (Hjw & (c' & Hc' & Ht) & Hno).
    split_and!; [done| |by eauto].
    exists c'. split; [|done]. rewrite Hcl, lookup_delete_ne; [done|].
    intros <-. apply H2. split; [done|]. congruence.
  - intros r room w H1%Hr H2. destruct (Hm r room w H1 H2) as [Hjw Hrid].
    split; [done|]. intros c'. rewrite Hcl, lookup_delete_Some. naive_solver.
  - eauto.
Qed.

Lemma consistent_connection es s ws id :
  consistent es s → readyState s !! ws = None →
  consistent (es ++ [Connection ws id])
    (on_connection (set_readyState s ws OPEN) ws id).1.
Proof.
  intros [Hw Hm Hj] Hnew.
  assert (∀ w, joined w es → w ≠ ws) as Hne.
  { intros w H%Hj ->. rewrite Hnew in H. by destruct H. }
  split; simpl.
  - intros t w H. destruct (Hw t w H) as (Hjw & Hc & Hno).
    split_and!; [by apply joined_snoc| |done].
    rewrite lookup_insert_ne; [done|]. intros <-. by apply (Hne ws).
  - intros r room w H1 H2. destruct (Hm r room w H1 H2) as [Hjw Hrid].
    split; [by apply joined_snoc|].
    rewrite lookup_insert_ne; [done|]. intros <-. by apply (Hne ws).
  - intros w [H|H]%joined_snoc_inv; [|done].
    apply Hj in H. destruct (decide (ws = w)) as [->|?].
    + rewrite lookup_insert_eq. eauto.
    + by rewrite lookup_insert_ne.
Qed.

Lemma consistent_join es s ws c msg rid s' out :
  consistent es s →
  clients s !! ws = Some c →
  is_Some (readyState s !! ws) →
  is_join (Some msg) = true →
  ¬ joined ws es →
  on_join s ws c msg rid = Done s' out →
  consistent (es ++ [Message ws (Some msg) rid]) s'.
Proof.
  intros [Hw Hm Hj] Hc Hcr Hjoin Hfirst (t & name & Hrs & Hcase)%on_join_inv.
  assert (∀ w, joined w es → w ≠ ws) as Hne by (by intros w H ->).
  assert (joined ws (es ++ [Message ws (Some msg) rid])) as Hjws.
  { apply joined_last. simpl. by rewrite Hjoin. }
  assert (∀ w, joined w (es ++ [Message ws (Some msg) rid]) →
            is_Some (readyState s' !! w)) as Hj'.
  { intros w [H|H]%joined_snoc_inv; rewrite Hrs; [by apply Hj|].
    simpl in H. rewrite Hjoin in H. by injection H as <-. }
  destruct Hcase as [(Hcl & Hq & Hr) | (w & h & Hwt & Hwne & Hh & Hcl & Hq & Hr)].
  - split; [| |done].
    + intros t' w'. rewrite Hq, Hcl, Hr. destruct (decide (t = t')) as [<-|Htt].
      * rewrite lookup_insert_eq. intros [= <-]. rewrite lookup_insert_eq.
        split_and!; [done|by eauto|].
        intros r room Hroom Hmem. by destruct (Hm r room ws Hroom Hmem).
      * rewrite lookup_insert_ne by done. intros H.
        destruct (Hw t' w' H) as (Hjw & Hc' & Hno).
        split_and!; [by apply joined_snoc| |done].
        rewrite lookup_insert_ne; [done|]. intros <-. by apply (Hne ws).
    + intros r room w'. rewrite Hr, Hcl. intros H1 H2.
      destruct (Hm r room w' H1 H2) as [Hjw Hrid].
      split; [by apply joined_snoc|].
      rewrite lookup_insert_ne; [done|]. intros <-. by apply (Hne ws).
  - destruct (Hw t w Hwt) as (Hjw & (h' & Hh' & Hht) & Hwno).
    assert (h' = h) as -> by congruence.
    split; [| |done].
    + intros t' w'. rewrite Hq, Hcl, Hr, lookup_delete_Some. intros [Htt H].
      destruct (Hw t' w' H) as (Hjw' & (c' & Hc' & Ht') & Hno).
      assert (w' ≠ ws) as Hn1 by auto.
      assert (w' ≠ w) as Hn2 by (intros ->; congruence).
      split_and!; [by apply joined_snoc| |].
      * rewrite !lookup_insert_ne by done. eauto.
      * intros r room. destruct (decide (rid = r)) as [<-|Hrr].
        -- rewrite lookup_insert_eq. intros [= <-] [?|?]; simpl in *; congruence.
        -- rewrite lookup_insert_ne by done. apply Hno.
    + intros r room x. rewrite Hr, Hcl. destruct (decide (rid = r)) as [<-|Hrr].
      * rewrite lookup_insert_eq. intros [= <-] [Hx|Hx]; simpl in Hx; subst x.
        -- split; [by apply joined_snoc|].
           rewrite lookup_insert_ne, lookup_insert_eq by done. by intros c0 [= <-].
        -- split; [done|]. rewrite lookup_insert_eq. by intros c0 [= <-].
      * rewrite lookup_insert_ne by done. intros H1 H2.
        destruct (Hm r room x H1 H2) as [Hjx Hrid].
        assert (x ≠ ws) as Hn1 by auto.
        assert (x ≠ w) as Hn2 by (intros ->; by apply (Hwno r room)).
        split; [by apply joined_snoc|].
        by rewrite !lookup_insert_ne by done.
Qed.

Lemma consistent_step es s e s' out :
  consistent es s →
  step s e = Some (s', out) →
  (∀ ws, joiner e = Some ws → ¬ joined ws es) →
  consistent (es ++ [e]) s'.
Proof.
  intros Hinv Hstep Hfirst. step_cases e Hstep Hcr.
  - injection Hstep as <- _.
    apply (consistent_connection es s ws id Hinv).
    by apply eq_None_not_Some.
  - destruct (on_message s ws buf rid) as [s1 out1|] eqn:Hm; [|done].
    injection Hstep as <- <-.
    destruct (clients s !! ws) as [c|] eqn:Hc.
    + destruct (is_join buf) eqn:Hj.
      * destruct (on_message_is_join s ws c buf rid Hc Hj) as (msg & -> & Heq).
        rewrite Heq in Hm.
        apply (consistent_join es s ws c msg rid s1 out1); try done.
        apply Hfirst. simpl. by rewrite Hj.
      * apply (on_message_not_join _ _ _ _ _ _ Hj) in Hm as ->.
        apply consistent_snoc; [done|]. simpl. intros w. by rewrite Hj.
    + rewrite on_message_unregistered in Hm by done. injection Hm as <- _.
      apply consistent_snoc; [done|]. simpl.
      intros w. destruct (is_join buf); [|done]. by intros [= <-].
  - injection Hstep as Hstep. apply consistent_snoc; [|done].
    apply (consistent_cleanup es (set_readyState s ws CLOSED) ws s' out); [|done].
    apply (consistent_readyState es s); try done.
    intros w. apply set_readyState_created.
  - injection Hstep as Hstep. apply consistent_snoc; [|done].
    apply (consistent_cleanup es (close s ws) ws s' out); [|done].
    destruct (close_maps s ws) as (? & ? & ?).
    apply (consistent_readyState es s); try done.
    intros w. apply close_created.
  - injection Hstep as <- _. apply consistent_snoc; [|done].
    destruct (close_maps s ws) as (? & ? & ?).
    apply (consistent_readyState es s); try done.
    intros w. apply close_created.
Qed.

Lemma consistent_init : consistent [] init.
Proof.
  split.
  - intros t w. simpl. by rewrite lookup_empty.
  - intros r room ws. simpl. by rewrite lookup_empty.
  - by intros ws ?%elem_of_nil.
Qed.

Lemma consistent_run es s :
  joins_once es → state_after es = Some s → consistent es s.
Proof.
  revert s. induction es as [|e es IH] using rev_ind; intros s Honce Hrun.
  - injection Hrun as <-. apply consistent_init.
  - apply joins_once_snoc in Honce as [Honce Hfirst].
    apply state_after_snoc in Hrun as (s0 & out & Hrun & Hstep).
    eapply consistent_step; eauto.
Qed.

(** C3 (amended): at every state reached by a run in which no connection
    sends more than one join request, every registered connection is a
    member of at most one existing room and is the waiting entry of at most
    one tier. *)
Theorem at_most_one_room_and_slot es s ws :
  joins_once es →
  state_after es = Some s →
  is_Some (clients s !! ws) →
  (∀ r1 r2 room1 room2,
     rooms s !! r1 = Some room1 → member ws room1 →
     rooms s !! r2 = Some room2 → member ws room2 → r1 = r2)
  ∧ (∀ t1 t2,
       waitingByTier s !! t1 = Some ws → waitingByTier s !! t2 = Some ws → t1 = t2).
Proof.
  intros Honce Hrun [c Hc].
  destruct (consistent_run es s Honce Hrun) as [Hw Hm _]. split.
  - intros r1 r2 room1 room2 H1 M1 H2 M2.
    destruct (Hm r1 room1 ws H1 M1) as [_ E1].
    destruct (Hm r2 room2 ws H2 M2) as [_ E2].
    specialize (E1 c Hc). specialize (E2 c Hc). congruence.
  - intros t1 t2 H1 H2.
    destruct (Hw t1 ws H1) as (_ & (c1 & Hc1 & E1) & _).
    destruct (Hw t2 ws H2) as (_ & (c2 & Hc2 & E2) & _).
    congruence.
Qed.

Lemma at_most_one_room_and_slot_witness :
  (∀ r1 r2 room1 room2,
     rooms paired !! r1 = Some room1 → member 1 room1 →
     rooms paired !! r2 = Some room2 → member 1 room2 → r1 = r2)
  ∧ (∀ t1 t2,
       waitingByTier paired !! t1 = Some 1%nat → waitingByTier paired !! t2 = Some 1%nat →
       t1 = t2).
Proof.
  apply (at_most_one_room_and_slot two_joined paired 1).
  - refine (@bool_decide_unpack (NoDup (omap joiner two_joined)) _ _).
    vm_compute. exact I.
  - by_evaluation.
  - exists (Client.mk "k3x9a2bq" (Some tier_1) (Some "X") (Some "r8u2c5vn")).
    by_evaluation.
Defined.

(** C3, as stated, fails.  After the run [two_tiers], in which socket 1
    joins tier 1 and then tier 2, socket 1 is the recorded waiter of both
    tiers.  After the run [second_room], in which socket 1 joins again while
    it is the host of a room and is then paired with socket 3, socket 1 is
    the host of two existing rooms. *)
Lemma joining_twice_keeps_both_entries :
  ∃ s s',
    state_after two_tiers = Some s
    ∧ is_Some (clients s !! 1%nat)
    ∧ waitingByTier s !! tier_1 = Some 1%nat
    ∧ waitingByTier s !! tier_2 = Some 1%nat
    ∧ tier_1 ≠ tier_2
    ∧ state_after second_room = Some s'
    ∧ is_Some (clients s' !! 1%nat)
    ∧ rooms s' !! "r8u2c5vn" = Some (Room.mk 1 2 tier_1)
    ∧ rooms s' !! "h4t6y1s0" = Some (Room.mk 1 3 tier_2)
    ∧ member 1 (Room.mk 1 2 tier_1) ∧ member 1 (Room.mk 1 3 tier_2)
    ∧ "r8u2c5vn" ≠ "h4t6y1s0".
Proof.
  do 2 eexists.
  split; [by_evaluation|]. split; [vm_compute; eauto|].
  split; [by_evaluation|]. split; [by_evaluation|].
  split; [discriminate|].
  split; [by_evaluation|]. split; [vm_compute; eauto|].
  split; [by_evaluation|]. split; [by_evaluation|].
  split; [by left|]. split; [by left|]. discriminate.
Qed.

(** ** Relay inside a room *)









(** ** Disconnect *)



(** ** What is sent, and to whom *)

Lemma elem_of_send s x o e :
  e ∈ send s x o → e = WsSend x o ∧ is_open s x = true.
Proof.
  unfold send. destruct (is_open s x); [|by intros ?%elem_of_nil].
  by intros ->%list_elem_of_singleton.
Qed.

(** The effects of a join request. *)
Lemma on_join_out s ws c msg rid s' out :
  on_join s ws c msg rid = Done s' out →
  out = send s ws (info "Searching for opponent (same tier)...")
  ∨ ∃ w h, w ≠ ws ∧ clients s !! w = Some h
      ∧ out = send s w (matched rid (Client.id h) (Client.id c))
              ++ send s ws (matched rid (Client.id h) (Client.id h))
              ++ send s w hostStart
              ++ send s ws (info "Waiting for host to start…").
Proof.
  unfold on_join.
  destruct (join_tier msg) as [t|]; [|done].
  destruct (join_name msg) as [name|]; [|done].
  destruct (waitingByTier s !! t) as [w|]; [|by intros [= _ <-]; left].
  destruct (decide (w = ws)) as [->|Hne]; [by intros [= _ <-]; left|].
  rewrite lookup_insert_ne by done.
  destruct (clients s !! w) as [h|] eqn:Hh; [|by intros [= _ <-]; left].
  intros [= _ <-]. right. by exists w, h.
Qed.

(** A message that is not a join request changes no state, and what it
    sends is one relayed object for the host or the client of the sender's
    room. *)
Lemma on_message_relay_inv s ws c buf rid s' out :
  clients s !! ws = Some c →
  is_join buf = false →
  on_message s ws buf rid = Done s' out →
  s' = s
  ∧ (out = []
     ∨ ∃ r room type p target,
         has_roomId c = Some r ∧ rooms s !! r = Some room
         ∧ out = send s target (relayed type p)
         ∧ (target = Room.hostWs room ∧ Room.hostWs room ≠ ws
            ∨ target = Room.clientWs room ∧ Room.hostWs room = ws)).
Proof.
  intros Hc Hj H. split; [by eapply on_message_not_join|].
  revert Hj H. unfold is_join, on_message.
  destruct buf as [msg|]; simpl; [|by intros _ [= _ <-]; left].
  rewrite Hc. destruct (Get msg "type") as [ty|]; [|done].
  intros ->. destruct (is_string ty "input").
  - unfold on_input. destruct (has_roomId c) as [r|]; [|by intros [= _ <-]; left].
    destruct (rooms s !! r) as [room|] eqn:Hroom; [|by intros [= _ <-]; left].
    destruct (decide (Room.hostWs room = ws)) as [|Hne]; [by intros [= _ <-]; left|].
    destruct (Get msg "payload") as [p|]; [|done].
    intros [= _ <-]. right. exists r, room, (VStr "input"), (or_else p (VObj [])).
    eexists. split_and!; [done..|]. by left.
  - destruct (_ || _); [|by intros [= _ <-]; left].
    unfold on_state. destruct (has_roomId c) as [r|]; [|by intros [= _ <-]; left].
    destruct (rooms s !! r) as [room|] eqn:Hroom; [|by intros [= _ <-]; left].
    destruct (decide (Room.hostWs room = ws)) as [Heq|]; [|by intros [= _ <-]; left].
    destruct (Get msg "payload") as [p|]; [|done].
    intros [= _ <-]. right. exists r, room, ty, (or_else p (VObj [])).
    eexists. split_and!; [done..|]. by right.
Qed.

Lemma on_message_readyState s ws buf rid s' out :
  on_message s ws buf rid = Done s' out → readyState s' = readyState s.
Proof.
  intros H. destruct (clients s !! ws) as [c|] eqn:Hc.
  - destruct (is_join buf) eqn:Hj.
    + destruct (on_message_is_join s ws c buf rid Hc Hj) as (msg & -> & Heq).
      rewrite Heq in H. by apply on_join_inv in H as (t & name & ? & _).
    + by apply (on_message_not_join _ _ _ _ _ _ Hj) in H as ->.
  - rewrite on_message_unregistered in H by done. by injection H as <- _.
Qed.

(** Everything a message makes the server do is a send on an open socket. *)
Lemma on_message_sends_open s ws buf rid s' out e :
  on_message s ws buf rid = Done s' out → e ∈ out →
  ∃ w obj, e = WsSend w obj ∧ is_open s w = true.
Proof.
  intros H He. destruct (clients s !! ws) as [c|] eqn:Hc.
  - destruct (is_join buf) eqn:Hj.
    + destruct (on_message_is_join s ws c buf rid Hc Hj) as (msg & -> & Heq).
      rewrite Heq in H.
      apply on_join_out in H as [-> | (w & h & _ & _ & ->)].
      * apply elem_of_send in He as [-> ?]. eauto.
      * rewrite !elem_of_app in He.
        destruct He as [He|[He|[He|He]]]; apply elem_of_send in He as [-> ?]; eauto.
    + destruct (on_message_relay_inv s ws c buf rid s' out Hc Hj H)
        as [_ [-> | (r & room & ty & p & target & _ & _ & -> & _)]].
      * by apply elem_of_nil in He.
      * apply elem_of_send in He as [-> ?]. eauto.
  - rewrite on_message_unregistered in H by done. injection H as _ <-.
    by apply elem_of_nil in He.
Qed.

(** How [close] and [cleanup] move [readyState]: a socket keeps its state or
    goes from open to closing. *)
Lemma close_lookup s x w :
  readyState (close s x) !! w = readyState s !! w
  ∨ readyState s !! w = Some OPEN ∧ readyState (close s x) !! w = Some CLOSING.
Proof.
  unfold close, is_open. case_bool_decide as Hopen; [|by left]. simpl.
  destruct (decide (x = w)) as [->|Hne].
  - right. by rewrite lookup_insert_eq.
  - left. by rewrite lookup_insert_ne.
Qed.

Lemma is_open_close s x w : is_open (close s x) w = true → is_open s w = true.
Proof.
  unfold is_open. rewrite !bool_decide_eq_true.
  destruct (close_lookup s x w) as [-> | [_ ->]]; done.
Qed.

Lemma cleanup_lookup s ws s' out w :
  cleanup s ws = (s', out) →
  readyState s' !! w = readyState s !! w
  ∨ readyState s !! w = Some OPEN ∧ readyState s' !! w = Some CLOSING.
Proof.
  unfold cleanup. destruct (clients s !! ws) as [c|]; [|by intros [= <- _]; left].
  cbv zeta.
  set (s1 := mkState (clients s) _ (rooms s) (readyState s)).
  assert (readyState s1 = readyState s) as Hs1 by done. clearbody s1.
  destruct (has_roomId c) as [r|]; [|by intros [= <- _]; left; rewrite <- Hs1].
  destruct (rooms s1 !! r) as [room|]; [|by intros [= <- _]; left; rewrite <- Hs1].
  intros [= <- _]. cbn [readyState]. rewrite <- Hs1. apply close_lookup.
Qed.

Lemma cleanup_sends_open s ws s' out w obj :
  cleanup s ws = (s', out) → WsSend w obj ∈ out → is_open s w = true.
Proof.
  unfold cleanup. destruct (clients s !! ws) as [c|]; [|by intros [= _ <-] ?%elem_of_nil].
  cbv zeta.
  set (s1 := mkState (clients s) _ (rooms s) (readyState s)).
  assert (∀ x o, send s1 x o = send s x o) as Hsend by done. clearbody s1.
  destruct (has_roomId c) as [r|]; [|by intros [= _ <-] ?%elem_of_nil].
  destruct (rooms s1 !! r) as [room|]; [|by intros [= _ <-] ?%elem_of_nil].
  intros [= _ <-]. rewrite Hsend, elem_of_app.
  intros [[[= -> ->] ?]%elem_of_send | [=]%list_elem_of_singleton]. done.
Qed.

(** One event: every send is on a socket that was open when the event
    arrived, or is the welcome on the socket the event connects. *)
Lemma step_sends_open s e s' out w obj :
  step s e = Some (s', out) → WsSend w obj ∈ out →
  is_open s w = true ∨ ∃ id, e = Connection w id ∧ obj = welcome id.
Proof.
  intros Hstep He. step_cases e Hstep Hcr.
  - injection Hstep as _ <-. apply elem_of_send in He as [[= -> ->] _]. right. eauto.
  - destruct (on_message s ws buf rid) as [s1 out1|] eqn:Hm; [|done].
    injection Hstep as <- <-.
    destruct (on_message_sends_open _ _ _ _ _ _ _ Hm He) as (w' & obj' & [= -> ->] & ?).
    by left.
  - injection Hstep as Hstep. left.
    apply (cleanup_sends_open _ _ _ _ _ _ Hstep) in He.
    revert He. unfold is_open. rewrite !bool_decide_eq_true. simpl.
    destruct (decide (ws = w)) as [->|Hne].
    + by rewrite lookup_insert_eq.
    + by rewrite lookup_insert_ne.
  - injection Hstep as Hstep. left.
    apply (cleanup_sends_open _ _ _ _ _ _ Hstep) in He. by apply is_open_close in He.
  - injection Hstep as _ <-. by apply elem_of_nil in He.
Qed.

Lemma step_keeps_closed s e s' out ws :
  readyState s !! ws = Some CLOSED → step s e = Some (s', out) →
  readyState s' !! ws = Some CLOSED.
Proof.
  intros Hcl Hstep. step_cases e Hstep Hcr.
  - injection Hstep as <- _. simpl. rewrite lookup_insert_ne; [done|].
    intros ->. apply Hcr. by rewrite Hcl.
  - destruct (on_message s ws0 buf rid) as [s1 out1|] eqn:Hm; [|done].
    injection Hstep as <- _. by rewrite (on_message_readyState _ _ _ _ _ _ Hm).
  - injection Hstep as Hstep.
    assert (readyState (set_readyState s ws0 CLOSED) !! ws = Some CLOSED) as Hcl'.
    { simpl. destruct (decide (ws0 = ws)) as [->|Hne].
      - by rewrite lookup_insert_eq.
      - by rewrite lookup_insert_ne. }
    destruct (cleanup_lookup _ _ _ _ ws Hstep) as [-> | [H _]]; [done|congruence].
  - injection Hstep as Hstep.
    destruct (cleanup_lookup _ _ _ _ ws Hstep) as [-> | [H _]].
    + destruct (close_lookup s ws0 ws) as [-> | [H _]]; [done|congruence].
    + destruct (close_lookup s ws0 ws) as [E | [H' _]]; congruence.
  - injection Hstep as <- _.
    destruct (close_lookup s ws0 ws) as [-> | [H _]]; [done|congruence].
Qed.

(** X1: a handler sends only on a socket that is open when its event
    arrives; the one exception is the welcome, sent on the socket the
    connection event has just handed over.  A socket that is closing or
    closed is sent nothing. *)
Theorem sends_need_open_socket s e s' out w obj :
  step s e = Some (s', out) →
  WsSend w obj ∈ out →
  is_open s w = true ∨ ∃ id, e = Connection w id ∧ obj = welcome id.
Proof. apply step_sends_open. Qed.

Lemma sends_need_open_socket_witness :
  is_open paired 1 = true
  ∨ ∃ id, Message 2 (Some (relay_msg "input" (VObj []))) "zzzzzzzz" = Connection 1 id
          ∧ relayed (VStr "input") (VObj []) = welcome id.
Proof.
  apply (sends_need_open_socket paired
           (Message 2 (Some (relay_msg "input" (VObj []))) "zzzzzzzz") paired
           [WsSend 1 (relayed (VStr "input") (VObj []))]).
  - by_evaluation.
  - by apply list_elem_of_singleton.
Defined.

Lemma run_keeps_closed es : ∀ s s' out ws,
  readyState s !! ws = Some CLOSED → run s es = Some (s', out) →
  ∀ obj, WsSend ws obj ∉ out.
Proof.
  induction es as [|e es IH]; intros s s' out ws Hcl; simpl.
  - intros [= _ <-] obj. apply not_elem_of_nil.
  - destruct (step s e) as [[s1 out1]|] eqn:Hstep; simpl; [|done].
    destruct (run s1 es) as [[s2 out2]|] eqn:Hrun; simpl; [|done].
    intros [= _ <-] obj. rewrite elem_of_app. intros [He|He].
    + destruct (step_sends_open _ _ _ _ _ _ Hstep He) as [Hopen | (id & -> & _)].
      * unfold is_open in Hopen. apply bool_decide_eq_true in Hopen. congruence.
      * simpl in Hstep. unfold created in Hstep.
        rewrite bool_decide_eq_true_2 in Hstep; [done|]. by rewrite Hcl.
    + by apply (IH s1 s2 out2 ws (step_keeps_closed _ _ _ _ _ Hcl Hstep) Hrun obj).
Qed.

(** X2: once the [close] event of a socket has been processed, nothing is
    ever sent on that socket again, neither by the cleanup it runs nor by
    any later event. *)
Theorem nothing_sent_after_close s ws s1 out1 es s2 out2 obj :
  step s (SocketClose ws) = Some (s1, out1) →
  run s1 es = Some (s2, out2) →
  WsSend ws obj ∉ out1 ++ out2.
Proof.
  intros Hstep Hrun.
  assert (readyState s1 !! ws = Some CLOSED) as Hcl.
  { simpl in Hstep. destruct (created s ws); [|done]. injection Hstep as Hstep.
    assert (readyState (set_readyState s ws CLOSED) !! ws = Some CLOSED) as H
      by (simpl; by rewrite lookup_insert_eq).
    destruct (cleanup_lookup _ _ _ _ ws Hstep) as [-> | [H' _]]; [done|congruence]. }
  rewrite elem_of_app. intros [He|He].
  - destruct (step_sends_open _ _ _ _ _ _ Hstep He) as [Hopen | (id & [=] & _)].
    simpl in Hstep. destruct (created s ws); [|done]. injection Hstep as Hstep.
    apply (cleanup_sends_open _ _ _ _ _ _ Hstep) in He.
    unfold is_open in He. apply bool_decide_eq_true in He. simpl in He.
    by rewrite lookup_insert_eq in He.
  - by apply (run_keeps_closed es s1 s2 out2 ws Hcl Hrun obj).
Qed.

Lemma nothing_sent_after_close_witness :
  WsSend 1 (relayed (VStr "input") (VObj []))
  ∉ [WsSend 2 (info "Opponent disconnected."); WsClose 2]
    ++ @nil effect.
Proof.
  apply (nothing_sent_after_close paired 1
           (default init (state_after (two_joined ++ [SocketClose 1])))
           [WsSend 2 (info "Opponent disconnected."); WsClose 2]
           [Message 2 (Some (relay_msg "input" (VObj []))) "zzzzzzzz"]
           (default init (state_after (two_joined ++ [SocketClose 1])))
           []);
    by_evaluation.
Defined.

(** ** The welcome is the first message *)

Lemma run_snoc s es e s' out :
  run s (es ++ [e]) = Some (s', out) →
  ∃ s1 out1 out2,
    run s es = Some (s1, out1) ∧ step s1 e = Some (s', out2) ∧ out = out1 ++ out2.
Proof.
  rewrite run_app. destruct (run s es) as [[s1 out1]|]; simpl; [|done].
  destruct (step s1 e) as [[s2 out2]|] eqn:Hstep; simpl; [|done].
  rewrite app_nil_r. intros [= <- <-]. by exists s1, out1, out2.
Qed.

Lemma sent_to_app ws out1 out2 :
  sent_to ws (out1 ++ out2) = sent_to ws out1 ++ sent_to ws out2.
Proof. apply omap_app. Qed.

Lemma sent_to_nil ws out :
  (∀ obj, WsSend ws obj ∉ out) → sent_to ws out = [].
Proof.
  induction out as [|e out IH]; [done|]. intros H. unfold sent_to. simpl.
  destruct e as [w obj|w].
  - destruct (decide (w = ws)) as [->|Hne].
    + exfalso. apply (H obj). by left.
    + apply IH. intros obj' Hin. apply (H obj'). by right.
  - apply IH. intros obj' Hin. apply (H obj'). by right.
Qed.

(** A socket appears in [readyState] by its connection event only, which
    sends it its welcome and nothing else; and it stays there. *)
Lemma step_new_socket s e s' out w :
  step s e = Some (s', out) → readyState s !! w = None →
  readyState s' !! w = None
  ∨ ∃ id, e = Connection w id ∧ out = [WsSend w (welcome id)].
Proof.
  intros Hstep Hnew. step_cases e Hstep Hcr.
  - injection Hstep as <- <-. destruct (decide (ws = w)) as [->|Hne].
    + right. exists id. split; [done|]. unfold send, is_open. simpl.
      by rewrite lookup_insert_eq.
    + left. simpl. by rewrite lookup_insert_ne.
  - destruct (on_message s ws buf rid) as [s1 out1|] eqn:Hm; [|done].
    injection Hstep as <- _. left. by rewrite (on_message_readyState _ _ _ _ _ _ Hm).
  - injection Hstep as Hstep. left.
    assert (readyState (set_readyState s ws CLOSED) !! w = None) as H.
    { simpl. rewrite lookup_insert_ne; [done|]. intros ->. rewrite Hnew in Hcr.
      by destruct Hcr. }
    destruct (cleanup_lookup _ _ _ _ w Hstep) as [-> | [H' _]]; [done|congruence].
  - injection Hstep as Hstep. left.
    assert (readyState (close s ws) !! w = None) as H.
    { destruct (close_lookup s ws w) as [-> | [H' _]]; [done|congruence]. }
    destruct (cleanup_lookup _ _ _ _ w Hstep) as [-> | [H' _]]; [done|congruence].
  - injection Hstep as <- _. left.
    destruct (close_lookup s ws w) as [-> | [H' _]]; [done|congruence].
Qed.

Lemma step_created s e s' out w :
  step s e = Some (s', out) →
  is_Some (readyState s !! w) → is_Some (readyState s' !! w).
Proof.
  intros Hstep Hw. step_cases e Hstep Hcr.
  - injection Hstep as <- _. by apply set_readyState_created.
  - destruct (on_message s ws buf rid) as [s1 out1|] eqn:Hm; [|done].
    injection Hstep as <- _. by rewrite (on_message_readyState _ _ _ _ _ _ Hm).
  - injection Hstep as Hstep.
    apply (set_readyState_created s ws CLOSED) in Hw.
    destruct (cleanup_lookup _ _ _ _ w Hstep) as [-> | [_ ->]]; eauto.
  - injection Hstep as Hstep. apply (close_created s ws) in Hw.
    destruct (cleanup_lookup _ _ _ _ w Hstep) as [-> | [_ ->]]; eauto.
  - injection Hstep as <- _. by apply close_created.
Qed.

Lemma welcome_invariant es : ∀ s out ws,
  run init es = Some (s, out) →
  match readyState s !! ws with
  | None => sent_to ws out = []
  | Some _ => ∃ id, Connection ws id ∈ es ∧ head (sent_to ws out) = Some (welcome id)
  end.
Proof.
  induction es as [|e es IH] using rev_ind; intros s out ws Hrun.
  - injection Hrun as <- <-. simpl. by rewrite lookup_empty.
  - apply run_snoc in Hrun as (s1 & out1 & out2 & Hrun & Hstep & ->).
    specialize (IH s1 out1 ws Hrun). rewrite sent_to_app.
    destruct (readyState s1 !! ws) as [st|] eqn:Hst.
    + destruct (step_created _ _ _ _ ws Hstep) as [st' ->]; [by rewrite Hst|].
      destruct IH as (id & Hin & Hhead). exists id. split; [set_solver|].
      by destruct (sent_to ws out1).
    + rewrite IH. simpl.
      destruct (step_new_socket _ _ _ _ ws Hstep Hst) as [Hnone | (id & -> & ->)].
      * rewrite Hnone. apply sent_to_nil. intros obj He.
        destruct (step_sends_open _ _ _ _ _ _ Hstep He) as [Hopen | (id & -> & _)].
        -- unfold is_open in Hopen. apply bool_decide_eq_true in Hopen. congruence.
        -- simpl in Hstep. destruct (created s1 ws); [done|].
           injection Hstep as <- _. simpl in Hnone.
           by rewrite lookup_insert_eq in Hnone.
      * simpl in Hstep. destruct (created s1 ws); [done|].
        injection Hstep as <- _. simpl. rewrite lookup_insert_eq.
        exists id. split; [set_solver|].
        unfold sent_to. simpl. by rewrite decide_True.
Qed.

(** X3: in every run, the first object sent on a socket is the welcome
    that carries the identity drawn at its connection: no notice and no
    relayed message reaches a socket before its welcome. *)
Theorem welcome_comes_first es s out ws obj :
  run init es = Some (s, out) →
  head (sent_to ws out) = Some obj →
  ∃ id, obj = welcome id ∧ Connection ws id ∈ es.
Proof.
  intros Hrun Hhead. pose proof (welcome_invariant es s out ws Hrun) as H.
  destruct (readyState s !! ws).
  - destruct H as (id & Hin & Hw). exists id. split; [congruence|done].
  - by rewrite H in Hhead.
Qed.

Lemma welcome_comes_first_witness :
  ∃ id, welcome "p07wm1de" = welcome id ∧ Connection 2 id ∈ two_joined.
Proof.
  apply (welcome_comes_first two_joined paired
           [WsSend 1 (welcome "k3x9a2bq");
            WsSend 1 (info "Searching for opponent (same tier)...");
            WsSend 2 (welcome "p07wm1de");
            WsSend 1 (matched "r8u2c5vn" "k3x9a2bq" "p07wm1de");
            WsSend 2 (matched "r8u2c5vn" "k3x9a2bq" "k3x9a2bq");
            WsSend 1 hostStart;
            WsSend 2 (info "Waiting for host to start…")] 2);
    by_evaluation.
Defined.

(** ** The registry *)

(** A message creates no registry entry and changes no identity. *)
Lemma on_message_clients s ws buf rid s' out w c' :
  on_message s ws buf rid = Done s' out →
  clients s' !! w = Some c' →
  ∃ c, clients s !! w = Some c ∧ Client.id c' = Client.id c.
Proof.
  intros H Hw. destruct (clients s !! ws) as [c|] eqn:Hc.
  - destruct (is_join buf) eqn:Hj.
    + destruct (on_message_is_join s ws c buf rid Hc Hj) as (msg & -> & Heq).
      rewrite Heq in H.
      apply on_join_inv in H
        as (t & name & _ & [(Hcl & _ & _) | (x & h & _ & Hne & Hh & Hcl & _ & _)]);
        rewrite Hcl in Hw.
      * destruct (decide (ws = w)) as [->|?].
        -- rewrite lookup_insert_eq in Hw. injection Hw as <-. eauto.
        -- rewrite lookup_insert_ne in Hw by done. eauto.
      * destruct (decide (ws = w)) as [->|?].
        -- rewrite lookup_insert_eq in Hw. injection Hw as <-. eauto.
        -- rewrite lookup_insert_ne in Hw by done.
           destruct (decide (x = w)) as [->|?].
           ++ rewrite lookup_insert_eq in Hw. injection Hw as <-. eauto.
           ++ rewrite lookup_insert_ne in Hw by done. eauto.
    + apply (on_message_not_join _ _ _ _ _ _ Hj) in H as ->. eauto.
  - rewrite on_message_unregistered in H by done. injection H as <- _. eauto.
Qed.

(** [cleanup] creates no registry entry, changes none, and removes the one
    of its socket. *)
Lemma cleanup_clients s ws s' out w c :
  cleanup s ws = (s', out) → clients s' !! w = Some c →
  clients s !! w = Some c ∧ w ≠ ws.
Proof.
  intros H%cleanup_inv Hw. destruct (clients s !! ws) as [c0|] eqn:Hc.
  - destruct H as (Hcl & _). rewrite Hcl in Hw.
    by apply lookup_delete_Some in Hw as [? ?].
  - subst. split; [done|]. intros ->. congruence.
Qed.

Lemma step_live_registry s e s' out :
  live_registry s → step s e = Some (s', out) → live_registry s'.
Proof.
  intros Hlive Hstep w c Hw.
  step_cases e Hstep Hcr.
  - injection Hstep as <- _. simpl in *. destruct (decide (ws = w)) as [->|Hne].
    + left. by rewrite lookup_insert_eq.
    + rewrite lookup_insert_ne in Hw by done. rewrite lookup_insert_ne by done. eauto.
  - destruct (on_message s ws buf rid) as [s1 out1|] eqn:Hm; [|done].
    injection Hstep as <- _. rewrite (on_message_readyState _ _ _ _ _ _ Hm).
    destruct (on_message_clients _ _ _ _ _ _ _ _ Hm Hw) as (c0 & Hc0 & _). eauto.
  - injection Hstep as Hstep.
    destruct (cleanup_clients _ _ _ _ _ _ Hstep Hw) as [Hw0 Hne]. simpl in Hw0.
    assert (readyState (set_readyState s ws CLOSED) !! w = readyState s !! w) as E
      by (simpl; by rewrite lookup_insert_ne).
    destruct (cleanup_lookup _ _ _ _ w Hstep) as [-> | [_ ->]]; [|by right].
    rewrite E. eauto.
  - injection Hstep as Hstep.
    destruct (cleanup_clients _ _ _ _ _ _ Hstep Hw) as [Hw0 Hne].
    destruct (close_maps s ws) as (Hcl & _). rewrite Hcl in Hw0.
    destruct (cleanup_lookup _ _ _ _ w Hstep) as [-> | [_ ->]]; [|by right].
    destruct (close_lookup s ws w) as [-> | [_ ->]]; [|by right]. eauto.
  - injection Hstep as <- _. destruct (close_maps s ws) as (Hcl & _).
    rewrite Hcl in Hw.
    destruct (close_lookup s ws w) as [-> | [_ ->]]; [|by right]. eauto.
Qed.

(** X4: at every reachable state the socket of every registered connection
    is open or closing: the [close] event of a socket always removes its
    registry entry, so no record of a closed socket is left behind. *)
Theorem registry_sockets_are_live s ws c :
  reachable s →
  clients s !! ws = Some c →
  readyState s !! ws = Some OPEN ∨ readyState s !! ws = Some CLOSING.
Proof.
  intros [es Hrun]. revert s Hrun ws c.
  induction es as [|e es IH] using rev_ind; intros s Hrun.
  - injection Hrun as <-. intros ws c. simpl. by rewrite lookup_empty.
  - apply state_after_snoc in Hrun as (s0 & out & Hrun & Hstep).
    apply (step_live_registry s0 e s out); [|done]. intros ws c. by apply IH.
Qed.

Lemma registry_sockets_are_live_witness :
  readyState paired !! 2%nat = Some OPEN ∨ readyState paired !! 2%nat = Some CLOSING.
Proof.
  apply (registry_sockets_are_live paired 2
           (Client.mk "p07wm1de" (Some tier_1) (Some "Y") (Some "r8u2c5vn"))).
  - exists two_joined. by_evaluation.
  - by_evaluation.
Defined.

Lemma step_identities_kept es s e s' out :
  identities_kept es s → step s e = Some (s', out) →
  identities_kept (es ++ [e]) s'.
Proof.
  intros Hid Hstep w c Hw. rewrite elem_of_app. step_cases e Hstep Hcr.
  - injection Hstep as <- _. simpl in Hw. destruct (decide (ws = w)) as [->|Hne].
    + rewrite lookup_insert_eq in Hw. injection Hw as <-. right. simpl.
      by apply list_elem_of_singleton.
    + rewrite lookup_insert_ne in Hw by done. left. eauto.
  - destruct (on_message s ws buf rid) as [s1 out1|] eqn:Hm; [|done].
    injection Hstep as <- _.
    destruct (on_message_clients _ _ _ _ _ _ _ _ Hm Hw) as (c0 & Hc0 & ->).
    left. eauto.
  - injection Hstep as Hstep.
    destruct (cleanup_clients _ _ _ _ _ _ Hstep Hw) as [Hw0 _]. left. eauto.
  - injection Hstep as Hstep.
    destruct (cleanup_clients _ _ _ _ _ _ Hstep Hw) as [Hw0 _].
    destruct (close_maps s ws) as (Hcl & _). rewrite Hcl in Hw0. left. eauto.
  - injection Hstep as <- _. destruct (close_maps s ws) as (Hcl & _).
    rewrite Hcl in Hw. left. eauto.
Qed.

(** X5: the identity of a connection never changes: after every run, the
    [id] in the record of a registered connection is the one drawn by
    [uid()] at its connection, the one its welcome carried. *)
Theorem identity_is_kept es s ws c :
  state_after es = Some s →
  clients s !! ws = Some c →
  Connection ws (Client.id c) ∈ es.
Proof.
  revert s ws c. induction es as [|e es IH] using rev_ind; intros s ws c Hrun.
  - injection Hrun as <-. simpl. by rewrite lookup_empty.
  - apply state_after_snoc in Hrun as (s0 & out & Hrun & Hstep).
    apply (step_identities_kept es s0 e s out); [|done].
    intros w c0. by apply IH.
Qed.

Lemma identity_is_kept_witness : Connection 2 "p07wm1de" ∈ two_joined.
Proof.
  apply (identity_is_kept two_joined paired 2
           (Client.mk "p07wm1de" (Some tier_1) (Some "Y") (Some "r8u2c5vn")));
    by_evaluation.
Defined.

(** ** Messages that are dropped *)

(** X6: a message has no effect at all (no state change, nothing sent) when
    its text does not parse, when its connection is not registered any
    more, when its [type] is none of [join], [input], [init] and
    [snapshot], and when it is an [input], [init] or [snapshot] message of
    a connection whose room reference is unset or names no existing
    room. *)
Theorem ignored_messages s ws buf rid :
  buf = None
  ∨ clients s !! ws = None
  ∨ (∃ msg type, buf = Some msg ∧ Get msg "type" = Some type
       ∧ Forall (λ k, is_string type k = false) ["join"; "input"; "init"; "snapshot"])
  ∨ (∃ msg type c, buf = Some msg ∧ Get msg "type" = Some type
       ∧ is_string type "join" = false
       ∧ clients s !! ws = Some c
       ∧ (has_roomId c = None ∨ ∃ r, has_roomId c = Some r ∧ rooms s !! r = None)) →
  on_message s ws buf rid = Done s [].
Proof.
  intros [-> | [Hc | [(msg & ty & -> & Hty & Hk) | (msg & ty & c & -> & Hty & Hj & Hc & Hr)]]].
  - done.
  - by apply on_message_unregistered.
  - unfold on_message. destruct (clients s !! ws); [|done]. rewrite Hty.
    apply Forall_cons in Hk as [-> Hk]. apply Forall_cons in Hk as [-> Hk].
    apply Forall_cons in Hk as [-> Hk]. by apply Forall_cons in Hk as [-> _].
  - unfold on_message. rewrite Hc, Hty, Hj.
    destruct (is_string ty "input").
    + unfold on_input. by destruct Hr as [-> | (r & -> & ->)].
    + destruct (_ || _); [|done].
      unfold on_state. by destruct Hr as [-> | (r & -> & ->)].
Qed.

Lemma ignored_messages_witness :
  on_message one_waiting 2 (Some (relay_msg "input" (VObj [("fire", VBool true)]))) "zzzzzzzz"
  = Done one_waiting [].
Proof.
  apply (ignored_messages one_waiting 2
           (Some (relay_msg "input" (VObj [("fire", VBool true)]))) "zzzzzzzz").
  do 3 right.
  exists (relay_msg "input" (VObj [("fire", VBool true)])), (VStr "input"),
         (Client.mk "p07wm1de" (Some tier_1) (Some "Y") None).
  split_and!; [by_evaluation..|]. by left.
Defined.

(** X7: at every reachable state, a message that is not a join request
    changes no state and makes the server send at most one object; the
    receiver is never the sender: it is the host or the client of the room
    that the sender's room reference names, and its socket is open. *)
Theorem relay_stays_in_room s ws c buf rid s' out :
  reachable s →
  clients s !! ws = Some c →
  is_join buf = false →
  on_message s ws buf rid = Done s' out →
  s' = s
  ∧ (List.length out ≤ 1)%nat
  ∧ ∀ e, e ∈ out →
      ∃ w obj r room,
        e = WsSend w obj ∧ w ≠ ws ∧ is_open s w = true
        ∧ has_roomId c = Some r ∧ rooms s !! r = Some room ∧ member w room.
Proof.
  intros Hreach Hc Hj H.
  destruct (on_message_relay_inv s ws c buf rid s' out Hc Hj H)
    as [-> [-> | (r & room & ty & p & target & Hr & Hroom & -> & Hdir)]].
  { split_and!; [done|simpl; lia|]. by intros e ?%elem_of_nil. }
  pose proof (reachable_distinct_members s Hreach r room Hroom) as Hd.
  split_and!; [done| |].
  - unfold send. destruct (is_open s target); simpl; lia.
  - intros e [-> Hopen]%elem_of_send. exists target, (relayed ty p), r, room.
    split_and!; try done.
    + destruct Hdir as [[-> ?] | [-> ?]]; congruence.
    + destruct Hdir as [[-> ?] | [-> ?]]; [by left|by right].
Qed.

Lemma relay_stays_in_room_witness :
  paired = paired
  ∧ (List.length [WsSend 1 (relayed (VStr "input") (VObj []))] ≤ 1)%nat
  ∧ ∀ e, e ∈ [WsSend 1 (relayed (VStr "input") (VObj []))] →
      ∃ w obj r room,
        e = WsSend w obj ∧ w ≠ 2%nat ∧ is_open paired w = true
        ∧ has_roomId (Client.mk "p07wm1de" (Some tier_1) (Some "Y") (Some "r8u2c5vn")) = Some r
        ∧ rooms paired !! r = Some room ∧ member w room.
Proof.
  apply (relay_stays_in_room paired 2
           (Client.mk "p07wm1de" (Some tier_1) (Some "Y") (Some "r8u2c5vn"))
           (Some (relay_msg "input" VNull)) "zzzzzzzz" paired
           [WsSend 1 (relayed (VStr "input") (VObj []))]);
    first [ exists two_joined; by_evaluation | by_evaluation ].
Defined.

(** ** Waiters and rooms *)

(** X8: a waiting connection that disconnects is never matched afterwards:
    [cleanup] empties the slot of its tier, and the next join request for
    that tier makes no room, is answered by the searching notice alone and
    leaves the requester as the new waiter. *)
Theorem departed_waiter_is_not_matched s w c t s1 out1 B cB msg name rid :
  clients s !! w = Some c →
  Client.tier c = Some t →
  waitingByTier s !! t = Some w →
  cleanup s w = (s1, out1) →
  clients s1 !! B = Some cB →
  Get msg "type" = Some (VStr "join") →
  join_tier msg = Some t →
  join_name msg = Some name →
  waitingByTier s1 !! t = None
  ∧ ∃ s2, on_message s1 B (Some msg) rid
          = Done s2 (send s1 B (info "Searching for opponent (same tier)..."))
        ∧ waitingByTier s2 !! t = Some B
        ∧ rooms s2 = rooms s1.
Proof.
  intros Hc Ht Hw Hclean HB Hty Htier Hname.
  assert (waitingByTier s1 !! t = None) as Hnone.
  { apply cleanup_inv in Hclean. rewrite Hc in Hclean.
    destruct Hclean as (_ & Hq & _).
    destruct (waitingByTier s1 !! t) as [w'|] eqn:E; [|done].
    destruct (Hq t w' E) as [Hw' Hno]. exfalso. apply Hno. split; congruence. }
  split; [done|].
  rewrite (on_message_join _ _ _ _ _ HB Hty).
  rewrite (on_join_waits _ _ _ _ _ _ _ Htier Hname) by (intros ?; by rewrite Hnone).
  eexists. split_and!; [done| |done]. simpl. by rewrite lookup_insert_eq.
Qed.

Lemma departed_waiter_is_not_matched_witness :
  waitingByTier (cleanup one_waiting 2).1 !! tier_1 = None
  ∧ ∃ s2, on_message (cleanup one_waiting 2).1 1
            (Some (join_msg (VNum tier_1) (VStr "X"))) "zzzzzzzz"
          = Done s2 (send (cleanup one_waiting 2).1 1
                       (info "Searching for opponent (same tier)..."))
        ∧ waitingByTier s2 !! tier_1 = Some 1%nat
        ∧ rooms s2 = rooms (cleanup one_waiting 2).1.
Proof.
  apply (departed_waiter_is_not_matched one_waiting 2
           (Client.mk "p07wm1de" (Some tier_1) (Some "Y") None) tier_1
           (cleanup one_waiting 2).1 [] 1
           (Client.mk "k3x9a2bq" None None None)
           (join_msg (VNum tier_1) (VStr "X")) "X" "zzzzzzzz");
    by_evaluation.
Defined.

(** X9: at every reachable state the host and the client of every room are
    two different connections: a connection is never paired with itself,
    not even when it sends its join request twice. *)
Theorem rooms_have_two_members s r room :
  reachable s →
  rooms s !! r = Some room →
  Room.hostWs room ≠ Room.clientWs room.
Proof. intros Hreach. by apply reachable_distinct_members. Qed.

Lemma rooms_have_two_members_witness :
  Room.hostWs (Room.mk 1 2 tier_1) ≠ Room.clientWs (Room.mk 1 2 tier_1).
Proof.
  apply (rooms_have_two_members paired "r8u2c5vn" (Room.mk 1 2 tier_1)).
  - exists two_joined. by_evaluation.
  - by_evaluation.
Defined.

Lemma step_tiers_agree es s e s' out :
  consistent es s → tiers_agree s →
  step s e = Some (s', out) →
  (∀ ws, joiner e = Some ws → ¬ joined ws es) →
  tiers_agree s'.
Proof.
  intros [Hw Hm Hj] Hagree Hstep Hfirst. step_cases e Hstep Hcr.
  - injection Hstep as <- _. intros r room x c Hroom Hmem. simpl in *.
    rewrite lookup_insert_ne; [by apply (Hagree r)|].
    intros <-. destruct (Hm r room ws Hroom Hmem) as [Hjx _].
    by apply Hj in Hjx.
  - destruct (on_message s ws buf rid) as [s1 out1|] eqn:Hmsg; [|done].
    injection Hstep as <- _.
    destruct (clients s !! ws) as [c|] eqn:Hc.
    + destruct (is_join buf) eqn:Hjoin.
      * destruct (on_message_is_join s ws c buf rid Hc Hjoin) as (msg & -> & Heq).
        rewrite Heq in Hmsg.
        assert (¬ joined ws es) as Hnot by (apply Hfirst; simpl; by rewrite Hjoin).
        assert (∀ r room, rooms s !! r = Some room → ¬ member ws room) as Hout.
        { intros r room Hroom Hmem. by destruct (Hm r room ws Hroom Hmem). }
        apply on_join_inv in Hmsg
          as (t & name & _ & [(Hcl & _ & Hr) | (w & h & Hwt & Hne & Hh & Hcl & _ & Hr)]);
          intros r room x c0; rewrite Hr, Hcl.
        -- intros Hroom Hmem. rewrite lookup_insert_ne; [by apply (Hagree r)|].
           intros <-. by apply (Hout r room).
        -- destruct (Hw t w Hwt) as (_ & (h' & Hh' & Hht) & Hwno).
           assert (h' = h) as -> by congruence.
           destruct (decide (rid = r)) as [<-|Hrr].
           ++ rewrite lookup_insert_eq. intros [= <-] [Hx|Hx]; simpl in Hx; subst x.
              ** rewrite lookup_insert_ne, lookup_insert_eq by done. by intros [= <-].
              ** rewrite lookup_insert_eq. by intros [= <-].
           ++ rewrite lookup_insert_ne by done. intros Hroom Hmem.
              rewrite !lookup_insert_ne; [by apply (Hagree r)| |].
              ** intros <-. by apply (Hwno r room).
              ** intros <-. by apply (Hout r room).
      * by apply (on_message_not_join _ _ _ _ _ _ Hjoin) in Hmsg as ->.
    + rewrite on_message_unregistered in Hmsg by done. by injection Hmsg as <- _.
  - injection Hstep as Hstep. intros r room x c Hroom Hmem Hx.
    destruct (cleanup_clients _ _ _ _ _ _ Hstep Hx) as [Hx0 _].
    apply cleanup_inv in Hstep. cbn [clients set_readyState] in Hstep.
    destruct (clients s !! ws) as [c0|].
    + destruct Hstep as (_ & _ & Hr & _). apply Hr in Hroom. by apply (Hagree r room x).
    + subst. by apply (Hagree r room x).
  - injection Hstep as Hstep. intros r room x c Hroom Hmem Hx.
    destruct (cleanup_clients _ _ _ _ _ _ Hstep Hx) as [Hx0 _].
    apply cleanup_inv in Hstep.
    destruct (close_maps s ws) as (Hcl & _ & Hro). rewrite Hcl in Hstep, Hx0.
    destruct (clients s !! ws) as [c0|].
    + destruct Hstep as (_ & _ & Hr & _). apply Hr in Hroom. rewrite Hro in Hroom.
      by apply (Hagree r room x).
    + subst. rewrite Hro in Hroom. by apply (Hagree r room x).
  - injection Hstep as <- _. destruct (close_maps s ws) as (Hcl & _ & Hro).
    intros r room x c. rewrite Hro, Hcl. apply Hagree.
Qed.

(** X10: matching is by tier: after every run in which no connection sends
    more than one join request, the recorded tier of every registered
    member of a room is the tier of the room, so the host and the client
    of a room asked for the same tier. *)
Theorem rooms_match_same_tier es s r room ws c :
  joins_once es →
  state_after es = Some s →
  rooms s !! r = Some room →
  member ws room →
  clients s !! ws = Some c →
  Client.tier c = Some (Room.tier room).
Proof.
  intros Honce Hrun. revert r room ws c. revert s Honce Hrun.
  induction es as [|e es IH] using rev_ind; intros s Honce Hrun.
  - injection Hrun as <-. intros r room ws c. simpl. by rewrite lookup_empty.
  - apply joins_once_snoc in Honce as [Honce Hfirst].
    apply state_after_snoc in Hrun as (s0 & out & Hrun & Hstep).
    apply (step_tiers_agree es s0 e s out); [|exact (IH s0 Honce Hrun)|done|done].
    by apply consistent_run.
Qed.

Lemma rooms_match_same_tier_witness :
  Client.tier (Client.mk "k3x9a2bq" (Some tier_1) (Some "X") (Some "r8u2c5vn"))
  = Some (Room.tier (Room.mk 1 2 tier_1)).
Proof.
  apply (rooms_match_same_tier two_joined paired "r8u2c5vn" (Room.mk 1 2 tier_1) 1
           (Client.mk "k3x9a2bq" (Some tier_1) (Some "X") (Some "r8u2c5vn"))).
  - refine (@bool_decide_unpack (NoDup (omap joiner two_joined)) _ _).
    vm_compute. exact I.
  - by_evaluation.
  - by_evaluation.
  - by left.
  - by_evaluation.
Defined.

(** ** The empty room name *)

(** X11: the room reference is tested for truthiness, and [uid()] returns
    the empty string when the random number prints as ["0"].  A pairing
    that draws this name records the room and both room references, but the
    room is dead: every [input], [init] and [snapshot] message of either
    member is dropped, and the cleanup of either member sends no notice,
    closes nobody and leaves the room record in place. *)
Theorem empty_room_id_is_dead s ws c msg t name w h :
  clients s !! ws = Some c →
  Get msg "type" = Some (VStr "join") →
  join_tier msg = Some t →
  join_name msg = Some name →
  waitingByTier s !! t = Some w →
  w ≠ ws →
  clients s !! w = Some h →
  uid "0" = ""
  ∧ ∃ s' out,
      on_message s ws (Some msg) (uid "0") = Done s' out
      ∧ rooms s' !! "" = Some (Room.mk w ws t)
      ∧ ∀ x, x = w ∨ x = ws →
          Client.roomId <$> clients s' !! x = Some (Some "")
          ∧ (∀ m type rid, Get m "type" = Some (VStr type) →
               type = "input" ∨ type = "init" ∨ type = "snapshot" →
               on_message s' x (Some m) rid = Done s' [])
          ∧ ∃ s'', cleanup s' x = (s'', []) ∧ rooms s'' = rooms s'.
Proof.
  intros Hc Hty Ht Hn Hw Hne Hh. split; [done|].
  change (uid "0") with "".
  rewrite (on_message_join _ _ _ _ _ Hc Hty).
  rewrite (on_join_pairs _ _ _ _ _ _ _ _ _ Ht Hn Hw Hne Hh).
  set (s' := mkState _ _ _ _).
  exists s'. eexists. split; [done|]. split; [apply lookup_insert_eq|].
  intros x Hx.
  assert (∃ cx, clients s' !! x = Some cx ∧ Client.roomId cx = Some "") as (cx & Hcx & Hrid).
  { destruct Hx as [-> | ->]; subst s'; simpl.
    - rewrite lookup_insert_ne, lookup_insert_eq by done. eauto.
    - rewrite lookup_insert_eq. eauto. }
  assert (has_roomId cx = None) as Hno by (unfold has_roomId; by rewrite Hrid).
  split_and!.
  - by rewrite Hcx, <- Hrid.
  - intros m ty rid Hm Hkind. unfold on_message. rewrite Hcx, Hm.
    destruct Hkind as [-> | [-> | ->]]; simpl; unfold on_input, on_state;
      by rewrite Hno.
  - unfold cleanup. rewrite Hcx. cbv zeta. rewrite Hno. eauto.
Qed.

Lemma empty_room_id_is_dead_witness :
  uid "0" = ""
  ∧ ∃ s' out,
      on_message one_waiting 1 (Some (join_msg (VNum tier_1) (VStr "X"))) (uid "0") = Done s' out
      ∧ rooms s' !! "" = Some (Room.mk 2 1 tier_1)
      ∧ ∀ x, x = 2%nat ∨ x = 1%nat →
          Client.roomId <$> clients s' !! x = Some (Some "")
          ∧ (∀ m type rid, Get m "type" = Some (VStr type) →
               type = "input" ∨ type = "init" ∨ type = "snapshot" →
               on_message s' x (Some m) rid = Done s' [])
          ∧ ∃ s'', cleanup s' x = (s'', []) ∧ rooms s'' = rooms s'.
Proof.
  apply (empty_room_id_is_dead one_waiting 1 (Client.mk "k3x9a2bq" None None None)
           (join_msg (VNum tier_1) (VStr "X")) tier_1 "X" 2
           (Client.mk "p07wm1de" (Some tier_1) (Some "Y") None));
    first [ lia | by_evaluation ].
Defined.

(** ** The [path] module *)

Lemma append_cons c x y : String c x +:+ y = String c (x +:+ y).
Proof. done. Qed.

Lemma append_nil_r x : x +:+ "" = x.
Proof. induction x as [|c x IH]; [done|]. by rewrite append_cons, IH. Qed.

Lemma append_assoc x y z : (x +:+ y) +:+ z = x +:+ (y +:+ z).
Proof. induction x as [|c x IH]; [done|]. by rewrite !append_cons, IH. Qed.

Lemma prefix_append x y : String.prefix x (x +:+ y) = true.
Proof.
  induction x as [|c x IH]; [by destruct y|].
  rewrite append_cons. simpl. by destruct (ascii_dec c c).
Qed.

Lemma split_path_nonempty p : split_path p ≠ [].
Proof.
  destruct p as [|c p]; simpl; [done|].
  destruct (Ascii.eqb c "/"); [done|]. by destruct (split_path p).
Qed.

Lemma split_path_segment x : has_char "/" x = false → split_path x = [x].
Proof.
  induction x as [|c x IH]; simpl; [done|].
  intros [Hc Hx]%orb_false_elim. rewrite Hc, IH; done.
Qed.

Lemma split_path_append a b :
  split_path (a +:+ String "/" b) = split_path a ++ split_path b.
Proof.
  induction a as [|c a IH]; [done|]. rewrite append_cons. simpl. rewrite IH.
  destruct (Ascii.eqb c "/"); [done|].
  pose proof (split_path_nonempty a). by destruct (split_path a).
Qed.

Lemma clean_slashless x : is_clean x = true → has_char "/" x = false.
Proof. unfold is_clean. rewrite !andb_true_iff, !negb_true_iff. tauto. Qed.

Lemma clean_nonempty x : is_clean x = true → x ≠ "".
Proof.
  unfold is_clean. rewrite !andb_true_iff, !negb_true_iff.
  intros [[[H _] _] _]. by apply String.eqb_neq.
Qed.

Lemma concat_cons x y l :
  String.concat "/" (x :: y :: l) = x +:+ String "/" (String.concat "/" (y :: l)).
Proof. done. Qed.

Lemma split_path_concat l :
  Forall (λ x, is_clean x = true) l → l ≠ [] →
  split_path (String.concat "/" l) = l.
Proof.
  induction 1 as [|x l Hx Hl IH]; [done|]. intros _.
  destruct l as [|y l].
  - simpl. by apply split_path_segment, clean_slashless.
  - rewrite concat_cons, split_path_append, IH by done.
    by rewrite split_path_segment by by apply clean_slashless.
Qed.

Lemma split_path_slashless p : Forall (λ x, has_char "/" x = false) (split_path p).
Proof.
  induction p as [|c p IH]; simpl; [by repeat constructor|].
  destruct (Ascii.eqb c "/") eqn:Hc; [by constructor|].
  pose proof (split_path_nonempty p).
  destruct (split_path p) as [|seg rest]; [done|].
  apply Forall_cons in IH as [Hseg Hrest]. constructor; [|done].
  simpl. by rewrite Hc.
Qed.

Lemma push_clean b kept seg :
  is_clean seg = true → push_segment b kept seg = seg :: kept.
Proof.
  unfold is_clean, push_segment. rewrite !andb_true_iff, !negb_true_iff.
  by intros [[[-> ->] ->] _].
Qed.

Lemma fold_push_clean b l : ∀ kept,
  Forall (λ x, is_clean x = true) l →
  fold_left (push_segment b) l kept = rev l ++ kept.
Proof.
  induction l as [|x l IH]; intros kept Hl; [done|].
  apply Forall_cons in Hl as [Hx Hl]. simpl. rewrite push_clean, IH by done.
  by rewrite <- app_assoc.
Qed.

Lemma push_absolute_clean kept seg :
  has_char "/" seg = false →
  Forall (λ x, is_clean x = true) kept →
  Forall (λ x, is_clean x = true) (push_segment false kept seg).
Proof.
  intros Hseg Hkept. unfold push_segment.
  destruct (String.eqb_spec seg ""); simpl; [done|].
  destruct (String.eqb_spec seg "."); simpl; [done|].
  destruct (String.eqb_spec seg "..").
  - destruct kept as [|top rest]; [done|].
    pose proof Hkept as [_ Hrest]%Forall_cons. by destruct (String.eqb top "..").
  - constructor; [|done]. unfold is_clean. rewrite Hseg.
    by repeat (rewrite (proj2 (String.eqb_neq _ _)) by done).
Qed.

Lemma fold_push_absolute_clean l : ∀ kept,
  Forall (λ x, has_char "/" x = false) l →
  Forall (λ x, is_clean x = true) kept →
  Forall (λ x, is_clean x = true) (fold_left (push_segment false) l kept).
Proof.
  induction l as [|x l IH]; intros kept Hl Hkept; [done|].
  apply Forall_cons in Hl as [Hx Hl]. simpl. apply IH; [done|].
  by apply push_absolute_clean.
Qed.

Lemma concat_clean_nonempty l :
  Forall (λ x, is_clean x = true) l → l ≠ [] → String.concat "/" l ≠ "".
Proof.
  intros Hl Hne. destruct l as [|x l]; [done|].
  apply Forall_cons in Hl as [Hx%clean_nonempty _].
  destruct x as [|c x]; [done|]. by destruct l.
Qed.

Lemma normalize_slash z :
  ∃ segs, Forall (λ x, is_clean x = true) segs
    ∧ segs = rev (fold_left (push_segment false) (split_path z) [])
    ∧ normalize (String "/" z) = rooted segs (ends_with_slash (String "/" z)).
Proof.
  eexists. split; [|split; [done|]].
  { apply Forall_rev, fold_push_absolute_clean; [apply split_path_slashless|done]. }
  unfold normalize, normalizeString.
  change (String.eqb (String "/" z) "") with false.
  change (starts_with_slash (String "/" z)) with true.
  change (split_path (String "/" z)) with ("" :: split_path z).
  cbn [fold_left negb]. change (push_segment false [] "") with (@nil string).
  set (segs := rev _).
  assert (Forall (λ x, is_clean x = true) segs) as Hsegs.
  { apply Forall_rev, fold_push_absolute_clean; [apply split_path_slashless|done]. }
  clearbody segs. destruct segs as [|x segs]; [done|].
  rewrite (proj2 (String.eqb_neq _ _)) by by apply concat_clean_nonempty.
  unfold rooted, root_path. destruct (ends_with_slash _); [|done].
  by rewrite append_assoc.
Qed.

Lemma ends_with_slash_cons c z :
  z ≠ "" → ends_with_slash (String c z) = ends_with_slash z.
Proof. by destruct z. Qed.

Lemma ends_with_slash_append a b :
  b ≠ "" → ends_with_slash (a +:+ b) = ends_with_slash b.
Proof.
  intros Hb. induction a as [|c a IH]; [done|].
  rewrite append_cons, ends_with_slash_cons, IH; [done|].
  destruct a; [done|by rewrite append_cons].
Qed.

Lemma root_path_slash segs y :
  root_path segs +:+ String "/" y = String "/" (String.concat "/" segs +:+ String "/" y).
Proof. done. Qed.

Lemma fold_push_concat segs :
  Forall (λ x, is_clean x = true) segs →
  fold_left (push_segment false) (split_path (String.concat "/" segs)) [] = rev segs.
Proof.
  intros Hsegs. destruct segs as [|x segs]; [done|].
  rewrite split_path_concat, fold_push_clean by done. apply app_nil_r.
Qed.

(** [normalize] of a path that continues an absolute path of clean
    segments. *)
Lemma normalize_under dir y :
  Forall (λ x, is_clean x = true) dir →
  normalize (root_path dir +:+ String "/" y)
  = rooted (rev (fold_left (push_segment false) (split_path y) (rev dir)))
      (ends_with_slash (String "/" y)).
Proof.
  intros Hdir. rewrite root_path_slash.
  destruct (normalize_slash (String.concat "/" dir +:+ String "/" y))
    as (segs & _ & -> & ->).
  rewrite split_path_append, fold_left_app, fold_push_concat by done.
  rewrite ends_with_slash_cons by by destruct (String.concat "/" dir).
  by rewrite ends_with_slash_append.
Qed.

Lemma join_two a b : a ≠ "" → b ≠ "" → join [a; b] = normalize (a +:+ String "/" b).
Proof.
  intros Ha Hb. unfold join.
  rewrite filter_cons_True, filter_cons_True by done. done.
Qed.

Lemma root_path_nonempty segs : root_path segs ≠ "".
Proof. done. Qed.

Lemma rooted_slash segs trailing : ∃ w, rooted segs trailing = String "/" w.
Proof.
  destruct segs as [|x segs]; [by eexists|].
  unfold rooted. destruct trailing; by eexists.
Qed.

Lemma concat_app dir segs :
  dir ≠ [] →
  String.concat "/" (dir ++ segs)
  = String.concat "/" dir +:+ match segs with
                              | [] => ""
                              | _ => String "/" (String.concat "/" segs)
                              end.
Proof.
  intros Hdir. induction dir as [|x dir IH]; [done|].
  destruct dir as [|y dir].
  - destruct segs; [by rewrite append_nil_r|done].
  - change ((x :: y :: dir) ++ segs) with (x :: y :: (dir ++ segs)).
    rewrite !concat_cons. change (y :: dir ++ segs) with ((y :: dir) ++ segs).
    rewrite IH by done. by rewrite append_assoc.
Qed.

Lemma prefix_rooted dir segs trailing :
  dir ≠ [] → String.prefix (root_path dir) (rooted (dir ++ segs) trailing) = true.
Proof.
  intros Hdir. unfold rooted.
  destruct (dir ++ segs) eqn:E; [by destruct dir|]. rewrite <- E.
  unfold root_path. rewrite concat_app by done.
  change ("/" +:+ ?x) with (String "/" x).
  destruct trailing; rewrite <- ?append_cons, ?append_assoc; apply prefix_append.
Qed.

Lemma inside_rooted dir segs trailing :
  dir ≠ [] → Forall (λ x, is_clean x = true) segs →
  inside dir (rooted (dir ++ segs) trailing).
Proof.
  intros Hdir Hsegs. exists segs. split; [done|]. unfold rooted.
  destruct (dir ++ segs) eqn:E; [by destruct dir|]. destruct trailing; auto.
Qed.

Lemma fold_push_skip b l kept :
  fold_left (push_segment b) ("" :: l) kept = fold_left (push_segment b) l kept.
Proof. done. Qed.

Lemma fold_push_rooted segs trailing kept :
  Forall (λ x, is_clean x = true) segs →
  fold_left (push_segment false) (split_path (rooted segs trailing)) kept
  = rev segs ++ kept.
Proof.
  intros Hsegs. destruct segs as [|x segs]; [done|]. unfold rooted, root_path.
  destruct trailing.
  - rewrite append_assoc.
    change ("/" +:+ ?a +:+ "/") with (String "/" (a +:+ String "/" "")).
    change (split_path (String "/" ?a)) with ("" :: split_path a).
    rewrite split_path_append, split_path_concat by done.
    rewrite fold_push_skip, fold_left_app, (fold_push_clean false (x :: segs)) by done.
    done.
  - change ("/" +:+ ?a) with (String "/" a).
    change (split_path (String "/" ?a)) with ("" :: split_path a).
    rewrite split_path_concat by done.
    by rewrite fold_push_skip, fold_push_clean.
Qed.

Lemma PUBLIC_DIR_root ds :
  Forall (λ x, is_clean x = true) ds →
  PUBLIC_DIR (root_path ds) = root_path (ds ++ ["public"]).
Proof.
  intros Hds. unfold PUBLIC_DIR. rewrite join_two, normalize_under by done.
  simpl. rewrite List.rev_involutive. unfold rooted. by destruct (ds ++ ["public"]) eqn:E; [destruct ds|].
Qed.

Lemma INDEX_FILE_root ds :
  Forall (λ x, is_clean x = true) ds →
  INDEX_FILE (root_path ds) = root_path (ds ++ ["public"; "index.html"]).
Proof.
  intros Hds. unfold INDEX_FILE. rewrite PUBLIC_DIR_root, join_two, normalize_under; try done.
  - simpl. rewrite List.rev_involutive, <- app_assoc. simpl.
    unfold rooted. by destruct (ds ++ ["public"; "index.html"]) eqn:E; [destruct ds|].
  - apply Forall_app. split; [done|]. by repeat constructor.
Qed.

(** The file of a request whose url starts with ["/"]. *)
Lemma file_path_origin ds z :
  Forall (λ x, is_clean x = true) ds →
  ∃ segs trailing,
    Forall (λ x, is_clean x = true) segs
    ∧ normalize (String "/" z) = rooted segs (ends_with_slash (String "/" z))
    ∧ file_path (root_path ds) (String "/" z) = rooted ((ds ++ ["public"]) ++ segs) trailing.
Proof.
  intros Hds. destruct (normalize_slash z) as (segs & Hsegs & _ & Hn).
  exists segs. eexists. split; [done|]. split; [done|].
  unfold file_path. rewrite Hn.
  destruct (rooted_slash segs (ends_with_slash (String "/" z))) as [w Hw].
  rewrite Hw. change (strip_parents (String "/" w)) with (String "/" w). rewrite <- Hw.
  rewrite PUBLIC_DIR_root, join_two by (done || by rewrite Hw).
  rewrite normalize_under by (apply Forall_app; split; [done|by repeat constructor]).
  rewrite fold_push_rooted by done.
  by rewrite List.rev_app_distr, !List.rev_involutive.
Qed.

Lemma root_path_cons segs : root_path segs = String "/" (String.concat "/" segs).
Proof. done. Qed.

Lemma ends_with_slash_slashless x : has_char "/" x = false → ends_with_slash x = false.
Proof.
  induction x as [|c x IH]; [done|]. simpl. intros [Hc Hx]%orb_false_iff.
  destruct x; [done|]. by apply IH.
Qed.

Lemma ends_with_slash_concat l :
  Forall (λ x, is_clean x = true) l → l ≠ [] →
  ends_with_slash (String.concat "/" l) = false.
Proof.
  induction l as [|x l IH]; [done|]. intros [Hx Hl]%Forall_cons _.
  destruct l as [|y l].
  { simpl. by apply ends_with_slash_slashless, clean_slashless. }
  rewrite concat_cons, ends_with_slash_append by done.
  rewrite ends_with_slash_cons by by apply concat_clean_nonempty.
  by apply IH.
Qed.

Lemma ends_with_slash_root segs :
  Forall (λ x, is_clean x = true) segs → segs ≠ [] →
  ends_with_slash (root_path segs) = false.
Proof.
  intros Hsegs Hne. rewrite root_path_cons.
  rewrite ends_with_slash_cons by by apply concat_clean_nonempty.
  by apply ends_with_slash_concat.
Qed.

Lemma normalize_clean segs :
  Forall (λ x, is_clean x = true) segs → segs ≠ [] →
  normalize (root_path segs) = root_path segs.
Proof.
  intros Hsegs Hne. rewrite root_path_cons.
  destruct (normalize_slash (String.concat "/" segs)) as (s' & _ & -> & ->).
  rewrite fold_push_concat, List.rev_involutive by done.
  rewrite <- root_path_cons, ends_with_slash_root by done.
  by destruct segs.
Qed.

Lemma file_path_clean ds segs :
  Forall (λ x, is_clean x = true) ds →
  Forall (λ x, is_clean x = true) segs → segs ≠ [] →
  file_path (root_path ds) (root_path segs) = root_path ((ds ++ ["public"]) ++ segs).
Proof.
  intros Hds Hsegs Hne. unfold file_path. rewrite normalize_clean by done.
  rewrite (root_path_cons segs).
  change (strip_parents (String "/" ?w)) with (String "/" w).
  rewrite <- root_path_cons.
  rewrite PUBLIC_DIR_root, join_two by (done || apply root_path_nonempty).
  rewrite normalize_under by (apply Forall_app; split; [done|by repeat constructor]).
  replace (root_path segs) with (rooted segs false) at 1 by by destruct segs.
  rewrite fold_push_rooted by done.
  rewrite List.rev_app_distr, !List.rev_involutive.
  rewrite ends_with_slash_cons by apply root_path_nonempty.
  rewrite ends_with_slash_root by done.
  unfold rooted. by destruct ((ds ++ ["public"]) ++ segs) eqn:E; [destruct ds|].
Qed.

Lemma strip_trailing_slashes_id p :
  ends_with_slash p = false → strip_trailing_slashes p = p.
Proof.
  induction p as [|c p IH]; [done|]. intros Hp. simpl.
  destruct p as [|c' p].
  { simpl in *. by rewrite Hp. }
  rewrite IH by done. by rewrite andb_false_r.
Qed.

Lemma split_path_root segs :
  Forall (λ x, is_clean x = true) segs → segs ≠ [] →
  split_path (root_path segs) = "" :: segs.
Proof.
  intros Hsegs Hne. rewrite root_path_cons.
  change (split_path (String "/" ?z)) with ("" :: split_path z).
  by rewrite split_path_concat.
Qed.

Lemma split_extension_dotless x : has_char "." x = false → split_extension x = None.
Proof.
  induction x as [|c x IH]; [done|]. simpl. intros [Hc Hx]%orb_false_iff.
  by rewrite IH, Hc.
Qed.

Lemma split_extension_app stem ext :
  has_char "." ext = false →
  split_extension (stem +:+ String "." ext) = Some (stem, String "." ext).
Proof.
  intros Hext. induction stem as [|c stem IH].
  - change ("" +:+ ?x) with x. simpl. by rewrite split_extension_dotless.
  - rewrite append_cons. simpl. by rewrite IH.
Qed.

Lemma extname_clean segs stem ext :
  Forall (λ x, is_clean x = true) segs →
  is_clean (stem +:+ String "." ext) = true →
  stem ≠ "" → has_char "." ext = false →
  extname (root_path (segs ++ [stem +:+ String "." ext])) = String "." ext.
Proof.
  intros Hsegs Hname Hstem Hext. unfold extname.
  assert (Forall (λ x, is_clean x = true) (segs ++ [stem +:+ String "." ext])) as Hall
    by (apply Forall_app; split; [done|by repeat constructor]).
  rewrite strip_trailing_slashes_id by (apply ends_with_slash_root; [done|by destruct segs]).
  rewrite split_path_root by (done || by destruct segs).
  rewrite app_comm_cons, List.last_last, split_extension_app by done.
  rewrite (proj2 (String.eqb_neq stem "")) by done.
  unfold is_clean in Hname. rewrite !andb_true_iff, !negb_true_iff in Hname.
  destruct Hname as [[[_ _] ->] _]. done.
Qed.

(** ** The request handler *)

(** X12: a request whose url starts with ["/"] (the origin form, which is
    what an HTTP client sends) is never answered 403, and every file the
    handler reads for it lies in the public directory: its path is the
    path of that directory followed by segments none of which is empty,
    ["."] or [".."].  So no sequence of [".."] in the url leads out of
    [public/]. *)
Theorem origin_form_requests_stay_inside ds fs z :
  Forall (λ x, is_clean x = true) ds →
  status (handler (root_path ds) fs (String "/" z)).2 ≠ 403%Z
  ∧ ∀ p, p ∈ (handler (root_path ds) fs (String "/" z)).1 →
         inside (ds ++ ["public"]) p.
Proof.
  intros Hds. unfold handler.
  destruct (String.eqb _ "/healthz").
  { split; [done|]. by intros p ?%elem_of_nil. }
  destruct (_ || _).
  { assert (inside (ds ++ ["public"]) (INDEX_FILE (root_path ds))) as Hin.
    { rewrite INDEX_FILE_root by done. exists ["index.html"].
      split; [by repeat constructor|]. left. by rewrite <- app_assoc. }
    destruct (fs !! _); (split; [done|]); by intros p ->%list_elem_of_singleton. }
  destruct (file_path_origin ds z Hds) as (segs & trailing & Hsegs & _ & ->).
  rewrite PUBLIC_DIR_root, prefix_rooted by (done || by destruct ds).
  assert (inside (ds ++ ["public"]) (rooted ((ds ++ ["public"]) ++ segs) trailing)) as Hin
    by (apply inside_rooted; [by destruct ds|done]).
  destruct (fs !! _); (split; [done|]); by intros p ->%list_elem_of_singleton.
Qed.

Lemma origin_form_requests_stay_inside_witness :
  status (handler (root_path ["srv"; "app"])
            {[ "/srv/app/public/index.html" := "<html></html>" ]}
            (String "/" "../../etc/passwd")).2 ≠ 403%Z
  ∧ ∀ p, p ∈ (handler (root_path ["srv"; "app"])
                {[ "/srv/app/public/index.html" := "<html></html>" ]}
                (String "/" "../../etc/passwd")).1 →
         inside (["srv"; "app"] ++ ["public"]) p.
Proof.
  apply (origin_form_requests_stay_inside ["srv"; "app"]).
  by repeat constructor.
Defined.

(** X13: whatever the url, every path the handler reads starts with the
    text of [PUBLIC_DIR]; and a request answered 403 reads no file at
    all, its [filePath] being one that does not start with that text. *)
Theorem reads_start_with_public_dir ds fs url :
  Forall (λ x, is_clean x = true) ds →
  (∀ p, p ∈ (handler (root_path ds) fs url).1 →
        String.prefix (PUBLIC_DIR (root_path ds)) p = true)
  ∧ (status (handler (root_path ds) fs url).2 = 403%Z →
     (handler (root_path ds) fs url).1 = []
     ∧ String.prefix (PUBLIC_DIR (root_path ds)) (file_path (root_path ds) url) = false).
Proof.
  intros Hds. unfold handler.
  destruct (String.eqb _ "/healthz").
  { split; [|done]. by intros p ?%elem_of_nil. }
  destruct (_ || _).
  { assert (String.prefix (PUBLIC_DIR (root_path ds)) (INDEX_FILE (root_path ds)) = true) as Hin.
    { rewrite INDEX_FILE_root, PUBLIC_DIR_root by done.
      change (ds ++ ["public"; "index.html"]) with (ds ++ ["public"] ++ ["index.html"]).
      rewrite app_assoc.
      pose proof (prefix_rooted (ds ++ ["public"]) ["index.html"] false) as H.
      unfold rooted in H.
      destruct ((ds ++ ["public"]) ++ ["index.html"]) eqn:E; [by destruct ds|].
      apply H. by destruct ds. }
    destruct (fs !! _); (split; [|done]); by intros p ->%list_elem_of_singleton. }
  destruct (String.prefix _ _) eqn:Hp; simpl.
  - destruct (fs !! _); (split; [|done]); by intros p ->%list_elem_of_singleton.
  - split; [|done]. by intros p ?%elem_of_nil.
Qed.

Lemma reads_start_with_public_dir_witness :
  (∀ p, p ∈ (handler (root_path ["srv"; "app"]) ∅ "..").1 →
        String.prefix (PUBLIC_DIR (root_path ["srv"; "app"])) p = true)
  ∧ (status (handler (root_path ["srv"; "app"]) ∅ "..").2 = 403%Z →
     (handler (root_path ["srv"; "app"]) ∅ "..").1 = []
     ∧ String.prefix (PUBLIC_DIR (root_path ["srv"; "app"]))
         (file_path (root_path ["srv"; "app"]) "..") = false).
Proof.
  apply (reads_start_with_public_dir ["srv"; "app"]).
  by repeat constructor.
Defined.

(** X14: a url made of clean segments whose last one is [stem.ext] (and
    which is none of the three fixed routes) is answered from the file of
    the same segments under the public directory: 200 with the content of
    the file and the content type of the lower-cased extension when the
    file can be read, 404 [Not found] otherwise.  That file is the only
    one read. *)
Theorem asset_is_served_with_its_type ds fs dirs stem ext :
  Forall (λ x, is_clean x = true) ds →
  Forall (λ x, is_clean x = true) dirs →
  is_clean (stem +:+ String "." ext) = true →
  stem ≠ "" → has_char "." ext = false →
  is_route (root_path (dirs ++ [stem +:+ String "." ext])) = false →
  handler (root_path ds) fs (root_path (dirs ++ [stem +:+ String "." ext])) =
    let path := root_path (ds ++ ["public"] ++ dirs ++ [stem +:+ String "." ext]) in
    ([path],
     match fs !! path with
     | Some data =>
         mkResponse 200 (Some (content_type (toLowerCase (String "." ext)))) data
     | None => mkResponse 404 (Some "text/plain") "Not found"
     end).
Proof.
  intros Hds Hdirs Hname Hstem Hext Hroute. cbv zeta.
  set (name := stem +:+ String "." ext) in *.
  assert (Forall (λ x, is_clean x = true) (dirs ++ [name])) as Hall
    by (apply Forall_app; split; [done|by repeat constructor]).
  assert (Forall (λ x, is_clean x = true) ((ds ++ ["public"]) ++ dirs)) as Hpub
    by (repeat (apply Forall_app; split); by repeat constructor).
  unfold is_route in Hroute. rewrite !orb_false_iff in Hroute.
  destruct Hroute as [[Hh Hr] Hi]. unfold handler. rewrite Hh, Hr, Hi. cbn [orb].
  cbv zeta. rewrite file_path_clean by (done || by destruct dirs).
  rewrite PUBLIC_DIR_root by done.
  replace (ds ++ ["public"] ++ dirs ++ [name]) with ((ds ++ ["public"]) ++ dirs ++ [name])
    by by rewrite <- !app_assoc.
  pose proof (prefix_rooted (ds ++ ["public"]) (dirs ++ [name]) false) as Hp.
  unfold rooted in Hp.
  destruct ((ds ++ ["public"]) ++ dirs ++ [name]) eqn:E; [by destruct ds|].
  rewrite <- E in *. rewrite Hp by by destruct ds. cbn [negb].
  rewrite (app_assoc (ds ++ _)). unfold name.
  rewrite extname_clean by done. by destruct (fs !! _).
Qed.

Lemma asset_is_served_with_its_type_witness :
  handler (root_path ["srv"; "app"])
    {[ "/srv/app/public/js/game.JS" := "let tank;" ]}
    (root_path (["js"] ++ ["game" +:+ String "." "JS"])) =
  (["/srv/app/public/js/game.JS"],
   mkResponse 200 (Some "text/javascript") "let tank;").
Proof.
  rewrite (asset_is_served_with_its_type ["srv"; "app"]); first [ done | by repeat constructor ].
Defined.

(** ** After a disconnect *)

(** X15: in a run in which no connection sends more than one join request,
    the [close] or [error] event of a socket leaves no trace of it in the
    registry or in the tier queue: the socket is not registered any more
    and is the waiting entry of no tier, so no later join request can be
    matched with it. *)
Theorem closed_socket_waits_nowhere es ws e s t :
  joins_once es →
  e = SocketClose ws ∨ e = SocketError ws →
  state_after (es ++ [e]) = Some s →
  clients s !! ws = None ∧ waitingByTier s !! t ≠ Some ws.
Proof.
  intros Honce He Hrun.
  assert (clients s !! ws = None) as Hgone.
  { apply state_after_snoc in Hrun as (s0 & out & _ & Hstep).
    assert (∃ s1, cleanup s1 ws = (s, out)) as [s1 Hc].
    { destruct He as [-> | ->]; simpl in Hstep;
        destruct (created s0 ws); [|done| |done]; injection Hstep as Hstep; eauto. }
    apply cleanup_inv in Hc. destruct (clients s1 !! ws) as [c|] eqn:Hcl.
    - destruct Hc as (-> & _). apply lookup_delete_eq.
    - by subst. }
  split; [done|]. intros Hw.
  assert (joins_once (es ++ [e])) as Honce'.
  { unfold joins_once. rewrite omap_app.
    by destruct He as [-> | ->]; simpl; rewrite app_nil_r. }
  destruct (waiter_ok _ _ (consistent_run _ _ Honce' Hrun) t ws Hw) as (_ & (c & Hc & _) & _).
  congruence.
Qed.

Lemma closed_socket_waits_nowhere_witness :
  clients (default init (state_after (single_join ++ [SocketClose 1]))) !! 1%nat = None
  ∧ waitingByTier (default init (state_after (single_join ++ [SocketClose 1]))) !! tier_1
    ≠ Some 1%nat.
Proof.
  apply (closed_socket_waits_nowhere single_join 1 (SocketClose 1)).
  - refine (@bool_decide_unpack (NoDup (omap joiner single_join)) _ _).
    vm_compute. exact I.
  - by left.
  - by_evaluation.
Defined.
